(** * poc-mcp-bq: a policy-gated BigQuery gateway

    Shallow embedding of [app/bq_service.py], [app/policy.py],
    [app/models.py], [app/mcp_protocol.py] and the request handlers of
    [app/main.py], followed by the properties of the specification that
    were checked against it.

    Conventions of the embedding:
    - a Python [str] is a [string]; only the ASCII letters, digits,
      underscore and white space are ever inspected by the code, every
      other character is opaque to it;
    - a Python [int] is a [Z];
    - a [dict] whose iteration order reaches the output (filters,
      set_values, rows) is an association list in insertion order; a
      [dict] that is only looked up (the policy document) is a [gmap];
    - an exception is a value of [Exn]; a function that may raise returns
      [Exn + A];
    - calls to the BigQuery client and to the policy engine are recorded
      in a trace, so that "before any store interaction" is a statement
      about that trace. *)

From Stdlib Require Import ZArith Ascii String List Lia DecimalString DecimalNat.
From stdpp Require Import base strings list gmap.

Local Open Scope string_scope.
Local Open Scope Z_scope.

(** ** Python runtime: strings, values, exceptions *)

Module Py.

Definition nl : string := String (ascii_of_nat 10) EmptyString.

(** [str.join] *)
Fixpoint join (sep : string) (parts : list string) : string :=
  match parts with
  | [] => ""
  | [p] => p
  | p :: ps => p +:+ sep +:+ join sep ps
  end.

(** [f"{i}"] for a non-negative index *)
Definition str_nat (i : nat) : string :=
  NilEmpty.string_of_uint (Nat.to_uint i).

Definition in_range (lo hi : nat) (c : ascii) : bool :=
  (lo <=? nat_of_ascii c)%nat && (nat_of_ascii c <=? hi)%nat.

Definition is_upper (c : ascii) : bool := in_range 65 90 c.
Definition is_lower (c : ascii) : bool := in_range 97 122 c.
Definition is_digit (c : ascii) : bool := in_range 48 57 c.
Definition is_underscore (c : ascii) : bool := (nat_of_ascii c =? 95)%nat.

(** [str.isspace] on the ASCII range *)
Definition is_space (c : ascii) : bool :=
  in_range 9 13 c || in_range 28 32 c.

Definition upper_char (c : ascii) : ascii :=
  if is_lower c then ascii_of_nat (nat_of_ascii c - 32) else c.

Definition lower_char (c : ascii) : ascii :=
  if is_upper c then ascii_of_nat (nat_of_ascii c + 32) else c.

Fixpoint map_chars (f : ascii -> ascii) (s : string) : string :=
  match s with
  | EmptyString => EmptyString
  | String c s' => String (f c) (map_chars f s')
  end.

(** [str.upper], [str.lower] *)
Definition upper : string -> string := map_chars upper_char.
Definition lower : string -> string := map_chars lower_char.

Fixpoint lstrip (s : string) : string :=
  match s with
  | String c s' => if is_space c then lstrip s' else s
  | EmptyString => EmptyString
  end.

Fixpoint rstrip (s : string) : string :=
  match s with
  | EmptyString => EmptyString
  | String c s' =>
      match rstrip s' with
      | EmptyString => if is_space c then EmptyString else String c EmptyString
      | r => String c r
      end
  end.

(** [str.strip] *)
Definition strip (s : string) : string := rstrip (lstrip s).

(** Payloads of the non-JSON scalars. Their fields are never inspected
    by the code under study: it only passes them to [str] and
    [isoformat]. *)
Record Decimal := mkDecimal
  { dec_negative : bool; dec_coefficient : N; dec_exponent : Z }.
Record Date := mkDate { year : Z; month : Z; day : Z }.
Record Time := mkTime
  { hour : Z; minute : Z; second : Z; microsecond : Z;
    utcoffset : option Z }.
Record Datetime := mkDatetime { dt_date : Date; dt_time : Time }.

(** A Python object as far as the gateway distinguishes them. A float is
    carried by its binary64 bit pattern; no arithmetic is done on it. *)
#[local] Unset Elimination Schemes.
Inductive Value : Type :=
| VNone
| VBool (b : bool)
| VInt (n : Z)
| VFloat (bits : Z)
| VStr (s : string)
| VBytes (b : list ascii)
| VDecimal (d : Decimal)
| VDatetime (d : Datetime)
| VDate (d : Date)
| VTime (t : Time)
| VList (items : list Value)
| VTuple (items : list Value)
| VDict (items : list (string * Value)).
#[local] Set Elimination Schemes.

(** [isinstance(v, cls)] for the classes the code tests. [bool] is a
    subclass of [int] and [datetime] is a subclass of [date]. *)
Inductive PyClass :=
  Cbool | Cint | Cfloat | Cstr | CDecimal | Cdatetime | Cdate | Ctime
| Clist | Cdict.

Definition isinstance (v : Value) (c : PyClass) : bool :=
  match c, v with
  | Cbool, VBool _ => true
  | Cint, (VBool _ | VInt _) => true
  | Cfloat, VFloat _ => true
  | Cstr, VStr _ => true
  | CDecimal, VDecimal _ => true
  | Cdatetime, VDatetime _ => true
  | Cdate, (VDatetime _ | VDate _) => true
  | Ctime, VTime _ => true
  | Clist, VList _ => true
  | Cdict, VDict _ => true
  | _, _ => false
  end.

(** Library functions whose text is not part of the repository. *)
Class Lib := mkLib
  { decimal_str : Decimal -> string;        (* str(decimal.Decimal) *)
    datetime_isoformat : Datetime -> string;
    date_isoformat : Date -> string;
    time_isoformat : Time -> string;
    repr : Value -> string }.               (* str() of any other object *)

(** [v.isoformat()] for [v] a datetime, date or time *)
Definition isoformat {L : Lib} (v : Value) : string :=
  match v with
  | VDatetime d => datetime_isoformat d
  | VDate d => date_isoformat d
  | VTime t => time_isoformat t
  | _ => ""
  end.

Inductive Exn :=
| ValueError (msg : string)
| PermissionError (msg : string)
| OtherError (msg : string).   (* anything raised by a client library *)

(** [str(v)] as used in f-strings *)
Definition py_str {L : Lib} (v : Value) : string :=
  match v with
  | VStr s => s
  | VNone => "None"
  | VBool true => "True"
  | VBool false => "False"
  | _ => repr v
  end.

(** [str(e)] *)
Definition exn_str (e : Exn) : string :=
  match e with
  | ValueError m | PermissionError m | OtherError m => m
  end.

(** Truth value of an optional container: [None] and the empty
    container are both false. *)
Definition truthy {A} (o : option (list A)) : bool :=
  match o with
  | Some (_ :: _) => true
  | _ => false
  end.

(** [o or {}] / the items of a container known to be truthy *)
Definition items_of {A} (o : option (list A)) : list A :=
  match o with Some l => l | None => [] end.

(** [dict.get(key)] on a dict kept in insertion order *)
Fixpoint dict_get {A} (d : list (string * A)) (key : string) : option A :=
  match d with
  | [] => None
  | (k, v) :: d' => if String.eqb k key then Some v else dict_get d' key
  end.

(** Computations that may raise: the error monad. *)
Definition ebind {A B} (m : Exn + A) (f : A -> Exn + B) : Exn + B :=
  match m with
  | inl e => inl e
  | inr a => f a
  end.

(** A generator or loop that raises at the first failing element. *)
Fixpoint emap {A B} (f : A -> Exn + B) (l : list A) : Exn + list B :=
  match l with
  | [] => inr []
  | x :: l' =>
      ebind (f x) (fun y => ebind (emap f l') (fun ys => inr (y :: ys)))
  end.

End Py.

Import Py.

(** ** app/bq_service.py: pure helpers *)

Module BqPure.

(** [[A-Za-z_]] and [[A-Za-z0-9_]] *)
Definition ident_start (c : ascii) : bool :=
  is_upper c || is_lower c || is_underscore c.
Definition ident_char (c : ascii) : bool :=
  ident_start c || is_digit c.

(** [$] outside MULTILINE mode: at the end of the subject, or just
    before a newline that is its last character. *)
Definition at_dollar (rest : string) : bool :=
  match rest with
  | EmptyString => true
  | String c EmptyString => (nat_of_ascii c =? 10)%nat
  | _ => false
  end.

(** [[A-Za-z0-9_]{0,n}$] against [rest]: some k <= n characters of the
    class followed by [$]. *)
Fixpoint ident_tail (n : nat) (rest : string) : bool :=
  at_dollar rest ||
  match n, rest with
  | S n', String c rest' => ident_char c && ident_tail n' rest'
  | _, _ => false
  end.

(** [IDENT_RE.match(name)], IDENT_RE = ^[A-Za-z_][A-Za-z0-9_]{0,127}$ *)
Definition IDENT_RE_match (name : string) : bool :=
  match name with
  | String c rest => ident_start c && ident_tail 127 rest
  | EmptyString => false
  end.

Definition _ensure_ident (name label : string) : Exn + string :=
  if negb (IDENT_RE_match name)
  then inl (ValueError ("Invalid " +:+ label +:+ ": " +:+ name))
  else inr name.

Fixpoint _normalize_value {L : Lib} (v : Value) : Value :=
  if isinstance v CDecimal then
    match v with VDecimal d => VStr (decimal_str d) | _ => v end
  else if isinstance v Cdatetime || isinstance v Cdate || isinstance v Ctime
  then VStr (isoformat v)
  else
    match v with
    | VList items => VList (map _normalize_value items)
    | VDict items =>
        VDict (map (fun kv => (fst kv, _normalize_value (snd kv))) items)
    | _ => v
    end.

Definition _param_type (value : Value) : string :=
  if isinstance value Cbool then "BOOL"
  else if isinstance value Cint then "INT64"
  else if isinstance value Cfloat then "FLOAT64"
  else if isinstance value CDecimal then "NUMERIC"
  else if isinstance value Cdatetime then "TIMESTAMP"
  else if isinstance value Cdate then "DATE"
  else "STRING".

End BqPure.

(** ** app/models.py and app/config.py *)

Module Models.

Inductive Operation := SELECT | CREATE_TABLE | INSERT | UPDATE | DELETE.

(** [Operation.value] *)
Definition Operation_value (op : Operation) : string :=
  match op with
  | SELECT => "SELECT"
  | CREATE_TABLE => "CREATE_TABLE"
  | INSERT => "INSERT"
  | UPDATE => "UPDATE"
  | DELETE => "DELETE"
  end.

Record TableField := mkTableField
  { tf_name : string; tf_type : string; tf_mode : string }.

(** A validated [ExecuteArgs]. An omitted [limit] has already been
    replaced by the declared default, see [default_limit]. *)
Record ExecuteArgs := mkExecuteArgs
  { operation : Operation;
    dataset : string;
    table : string;
    columns : option (list string);
    filters : option (list (string * Value));
    limit : Z;
    schema : option (list TableField);
    if_not_exists : bool;
    rows : option (list (list (string * Value)));
    set_values : option (list (string * Value)) }.

(** [limit: int = 100] *)
Definition default_limit : Z := 100.

(** The value pydantic stores in [limit] for a document that gives it
    or leaves it out. *)
Definition limit_field (given : option Z) : Z :=
  match given with Some n => n | None => default_limit end.

Record JsonRpcRequest := mkJsonRpcRequest
  { req_jsonrpc : string;
    req_id : Value;                         (* [id: Any = None] *)
    req_method : string;
    req_params : option (list (string * Value)) }.

(** [id: Any = None]: the field of a request that gives an id or not. *)
Definition id_field (given : option Value) : Value :=
  match given with Some v => v | None => VNone end.

Record Settings := mkSettings
  { app_name : string;
    project_id : string;
    bigquery_location : string;
    policy_json : string;
    max_select_limit : Z;
    allow_full_table_delete : bool }.

End Models.

Import Models.

(** ** The BigQuery client, and the trace of calls made to collaborators *)

Module Store.

Record ScalarQueryParameter := mkParam
  { sp_name : string; sp_type : string; sp_value : Value }.

Record SchemaField := mkSchemaField
  { sf_name : string; sf_type : string; sf_mode : string }.

Inductive StoreCall :=
| Query (sql location : string) (query_parameters : list ScalarQueryParameter)
| CreateTable (table_id : string) (fields : list SchemaField) (exists_ok : bool)
| InsertRowsJson (table_id : string) (json_rows : list (list (string * Value))).

(** A finished query job: [job.job_id], [job.result()] and
    [job.num_dml_affected_rows]. *)
Record QueryJob := mkQueryJob
  { job_id : string;
    result : list (list (string * Value));
    num_dml_affected_rows : option Z }.

(** What the client library answers; each call may raise. *)
Record Client := mkClient
  { query : string -> string -> list ScalarQueryParameter -> Exn + QueryJob;
    create_table : string -> list SchemaField -> bool -> Exn + string;
    insert_rows_json :
      string -> list (list (string * Value)) -> Exn + list Value }.

Inductive Event :=
| EvPolicy (principal operation dataset table : string)
| EvStore (call : StoreCall).

(** A computation that may raise and records the collaborators it
    called, in order. *)
Definition M (A : Type) : Type := list Event * (Exn + A).

Definition ret {A} (a : A) : M A := ([], inr a).
Definition raise {A} (e : Exn) : M A := ([], inl e).
Definition lift {A} (r : Exn + A) : M A := ([], r).
Definition emit {A} (ev : Event) (r : Exn + A) : M A := ([ev], r).

Definition bind {A B} (m : M A) (f : A -> M B) : M B :=
  match m with
  | (t, inl e) => (t, inl e)
  | (t, inr a) => let '(t', r) := f a in ((t ++ t')%list, r)
  end.

Definition trace {A} (m : M A) : list Event := fst m.
Definition outcome {A} (m : M A) : Exn + A := snd m.

Definition is_store_event (ev : Event) : bool :=
  match ev with EvStore _ => true | EvPolicy _ _ _ _ => false end.

Definition is_policy_event (ev : Event) : bool :=
  match ev with EvPolicy _ _ _ _ => true | EvStore _ => false end.

End Store.

Import Store.

Notation "'let*' x ':=' m 'in' k" := (Store.bind m (fun x => k))
  (at level 10, x name, m at level 100, k at level 200, only parsing).
Notation "'run' m 'in' k" := (Store.bind m (fun _ => k))
  (at level 10, m at level 100, k at level 200, only parsing).

(** ** app/bq_service.py: class BigQueryService *)

Module BigQueryService.

Import BqPure.

Section Service.

Context {L : Lib}.
Variable settings : Settings.
Variable client : Client.

Definition _table_ref (dataset table : string) : Exn + string :=
  ebind (_ensure_ident dataset "dataset") (fun ds =>
  ebind (_ensure_ident table "table") (fun tb =>
  inr ("`" +:+ project_id settings +:+ "." +:+ ds +:+ "." +:+ tb +:+ "`"))).

Definition _col_ref (col : string) : Exn + string :=
  ebind (_ensure_ident col "column") (fun c => inr ("`" +:+ c +:+ "`")).

(** The loop
    [for i, (k, v) in enumerate(d.items()):
       col = self._col_ref(k); pname = f"{prefix}{i}";
       parts.append(f"{col} = @{pname}");
       params.append(ScalarQueryParameter(pname, _param_type(v), v))]
    written three times in the source with prefixes f, s/w and d;
    [i] is the index of the first remaining item. *)
Fixpoint predicate_loop (prefix : string) (i : nat)
    (items : list (string * Value))
    : Exn + (list string * list ScalarQueryParameter) :=
  match items with
  | [] => inr ([], [])
  | (k, v) :: items' =>
      ebind (_col_ref k) (fun col =>
      let pname := prefix +:+ str_nat i in
      ebind (predicate_loop prefix (S i) items') (fun r =>
      inr ((col +:+ " = @" +:+ pname) :: fst r,
           mkParam pname (_param_type v) v :: snd r)))
  end.

(** [min(max(int(args.limit or 100), 1), self.max_select_limit)] *)
Definition select_limit (args : ExecuteArgs) : Z :=
  Z.min (Z.max (if limit args =? 0 then 100 else limit args) 1)
        (max_select_limit settings).

Definition _select (args : ExecuteArgs) : M Value :=
  let* table_ref := lift (_table_ref (dataset args) (table args)) in
  let* cols := lift (if truthy (columns args)
                then ebind (emap _col_ref (items_of (columns args)))
                           (fun cs => inr (join ", " cs))
                else inr "*") in
  let limit := select_limit args in
  let sql := "SELECT " +:+ cols +:+ " FROM " +:+ table_ref in
  let* sp := lift (if truthy (filters args)
              then ebind (predicate_loop "f" 0 (items_of (filters args)))
                     (fun r => inr (sql +:+ " WHERE " +:+ join " AND " (fst r),
                                    snd r))
              else inr (sql, [])) in
  let sql := fst sp +:+ " LIMIT @limit" in
  let params := (snd sp ++ [mkParam "limit" "INT64" (VInt limit)])%list in
  let* job := emit (EvStore (Query sql (bigquery_location settings) params))
              (query client sql (bigquery_location settings) params) in
  let rows := map (fun r => _normalize_value (VDict r)) (result job) in
  ret (VDict [("operation", VStr "SELECT");
              ("row_count", VInt (Z.of_nat (length rows)));
              ("rows", VList rows);
              ("job_id", VStr (job_id job))]).

Definition ALLOWED_TYPES : list string :=
  ["STRING"; "BYTES"; "INT64"; "FLOAT64"; "NUMERIC"; "BIGNUMERIC";
   "BOOL"; "TIMESTAMP"; "DATE"; "TIME"; "DATETIME"; "JSON"].

Definition schema_field (f : TableField) : Exn + SchemaField :=
  if negb (existsb (String.eqb (tf_type f)) ALLOWED_TYPES)
  then inl (ValueError ("Unsupported BigQuery type: " +:+ tf_type f))
  else ebind (_ensure_ident (tf_name f) "field name") (fun _ =>
       inr (mkSchemaField (tf_name f) (tf_type f) (tf_mode f))).

Definition _create_table (args : ExecuteArgs) : M Value :=
  if negb (truthy (schema args))
  then raise (ValueError "schema is required for CREATE_TABLE")
  else
    run lift (_ensure_ident (dataset args) "dataset") in
    run lift (_ensure_ident (table args) "table") in
    let* schema_fields := lift (emap schema_field (items_of (schema args))) in
    let table_id :=
      project_id settings +:+ "." +:+ dataset args +:+ "." +:+ table args in
    let* created := emit (EvStore (CreateTable table_id schema_fields
                                          (if_not_exists args)))
                    (create_table client table_id schema_fields
                                  (if_not_exists args)) in
    ret (VDict [("operation", VStr "CREATE_TABLE");
                ("table", VStr created);
                ("created", VBool true)]).

Definition _insert (args : ExecuteArgs) : M Value :=
  if negb (truthy (rows args))
  then raise (ValueError "rows is required for INSERT")
  else
    run lift (_ensure_ident (dataset args) "dataset") in
    run lift (_ensure_ident (table args) "table") in
    let table_id :=
      project_id settings +:+ "." +:+ dataset args +:+ "." +:+ table args in
    let* errors := emit (EvStore (InsertRowsJson table_id (items_of (rows args))))
                   (insert_rows_json client table_id (items_of (rows args))) in
    match errors with
    | _ :: _ =>
        raise (ValueError ("BigQuery insert errors: " +:+ repr (VList errors)))
    | [] =>
        ret (VDict [("operation", VStr "INSERT");
                    ("inserted_rows",
                     VInt (Z.of_nat (length (items_of (rows args)))))])
    end.

(** [int(job.num_dml_affected_rows or 0)] *)
Definition affected_rows (job : QueryJob) : Z :=
  match num_dml_affected_rows job with Some n => n | None => 0 end.

Definition _update (args : ExecuteArgs) : M Value :=
  if negb (truthy (set_values args))
  then raise (ValueError "set_values is required for UPDATE")
  else if negb (truthy (filters args))
  then raise (ValueError "filters are required for UPDATE (safe default)")
  else
    let* table_ref := lift (_table_ref (dataset args) (table args)) in
    let* sets := lift (predicate_loop "s" 0 (items_of (set_values args))) in
    let* wheres := lift (predicate_loop "w" 0 (items_of (filters args))) in
    let params := (snd sets ++ snd wheres)%list in
    let sql :=
      nl +:+ "        UPDATE " +:+ table_ref +:+
      nl +:+ "        SET " +:+ join ", " (fst sets) +:+
      nl +:+ "        WHERE " +:+ join " AND " (fst wheres) +:+
      nl +:+ "        " in
    let* job := emit (EvStore (Query sql (bigquery_location settings) params))
                (query client sql (bigquery_location settings) params) in
    ret (VDict [("operation", VStr "UPDATE");
                ("affected_rows", VInt (affected_rows job));
                ("job_id", VStr (job_id job))]).

Definition _delete (args : ExecuteArgs) : M Value :=
  let* table_ref := lift (_table_ref (dataset args) (table args)) in
  let* wp := lift (if truthy (filters args)
              then ebind (predicate_loop "d" 0 (items_of (filters args)))
                     (fun r => inr (" WHERE " +:+ join " AND " (fst r), snd r))
              else if negb (allow_full_table_delete settings)
              then inl (ValueError "DELETE without filters is blocked by policy")
              else inr ("", [])) in
  let sql := "DELETE FROM " +:+ table_ref +:+ fst wp in
  let* job := emit (EvStore (Query sql (bigquery_location settings) (snd wp)))
              (query client sql (bigquery_location settings) (snd wp)) in
  ret (VDict [("operation", VStr "DELETE");
              ("affected_rows", VInt (affected_rows job));
              ("job_id", VStr (job_id job))]).

Definition execute (args : ExecuteArgs) : M Value :=
  match operation args with
  | SELECT => _select args
  | CREATE_TABLE => _create_table args
  | INSERT => _insert args
  | UPDATE => _update args
  | DELETE => _delete args
  end.

End Service.

End BigQueryService.

(** ** app/policy.py *)

Module Policy.

(** A rule set, [{"operations": [...], "datasets": {ds: [tables]}}];
    either key may be missing. *)
Record Rules := mkRules
  { rules_operations : option (list Value);
    rules_datasets : option (gmap string (list string)) }.

(** The policy document, [{"principals": {...}, "default": {...}}]. *)
Record PolicyDoc := mkPolicyDoc
  { doc_principals : option (gmap string Rules);
    doc_default : option Rules }.

Definition empty_rules : Rules := mkRules None None.

(** [{op.upper().strip() for op in ops if isinstance(op, str)}] *)
Fixpoint _normalize_ops (ops : list Value) : list string :=
  match ops with
  | [] => []
  | op :: ops' =>
      if isinstance op Cstr
      then match op with
           | VStr s => strip (upper s) :: _normalize_ops ops'
           | _ => _normalize_ops ops'
           end
      else _normalize_ops ops'
  end.

Definition _get_rules_for_principal (policy : PolicyDoc) (principal : string)
    : Rules :=
  let principal_l := strip (lower principal) in
  let principals := default (∅ : gmap string Rules) (doc_principals policy) in
  match principals !! principal_l with
  | Some rules => rules
  | None => default empty_rules (doc_default policy)
  end.

Definition assert_allowed (policy : PolicyDoc)
    (principal operation dataset table : string) : Exn + unit :=
  let rules := _get_rules_for_principal policy principal in
  let allowed_ops := _normalize_ops (default [] (rules_operations rules)) in
  let op_u := strip (upper operation) in
  if negb (existsb (String.eqb op_u) allowed_ops)
  then inl (PermissionError ("Operation '" +:+ op_u +:+
              "' is not allowed for principal '" +:+ principal +:+ "'"))
  else
    let ds_rules := default (∅ : gmap string (list string)) (rules_datasets rules) in
    match ds_rules !! dataset with
    | None =>
        inl (PermissionError ("Dataset '" +:+ dataset +:+
               "' is not allowed for principal '" +:+ principal +:+ "'"))
    | Some tables =>
        if existsb (String.eqb "*") tables then inr tt
        else if negb (existsb (String.eqb table) tables)
        then inl (PermissionError ("Table '" +:+ dataset +:+ "." +:+ table +:+
                    "' is not allowed for principal '" +:+ principal +:+ "'"))
        else inr tt
    end.

End Policy.

(** ** app/mcp_protocol.py *)

Module McpProtocol.

Definition _rpc_ok (req_id result : Value) : Value :=
  VDict [("jsonrpc", VStr "2.0"); ("id", req_id); ("result", result)].

Definition _rpc_err (req_id : Value) (code : Z) (message : string) : Value :=
  VDict [("jsonrpc", VStr "2.0"); ("id", req_id);
         ("error", VDict [("code", VInt code); ("message", VStr message)])].

Definition ty (t : string) : Value := VDict [("type", VStr t)].

(** The literal returned for [tools/list]. *)
Definition tools_list_result : Value :=
  VDict [("tools", VList [
    VDict [
      ("name", VStr "bigquery.execute");
      ("description", VStr "Run controlled BigQuery operation");
      ("inputSchema", VDict [
        ("type", VStr "object");
        ("properties", VDict [
          ("operation", VDict [
             ("type", VStr "string");
             ("enum", VList [VStr "SELECT"; VStr "CREATE_TABLE";
                             VStr "INSERT"; VStr "UPDATE"; VStr "DELETE"])]);
          ("dataset", ty "string");
          ("table", ty "string");
          ("columns", VDict [("type", VStr "array"); ("items", ty "string")]);
          ("filters", ty "object");
          ("limit", ty "integer");
          ("schema", VDict [
             ("type", VStr "array");
             ("items", VDict [
                ("type", VStr "object");
                ("properties", VDict [("name", ty "string");
                                      ("type", ty "string");
                                      ("mode", ty "string")]);
                ("required", VList [VStr "name"; VStr "type"])])]);
          ("if_not_exists", ty "boolean");
          ("rows", VDict [("type", VStr "array"); ("items", ty "object")]);
          ("set_values", ty "object")]);
        ("required", VList [VStr "operation"; VStr "dataset"; VStr "table"])])]])].

Section Dispatch.

Context {L : Lib}.

(** [ExecuteArgs.model_validate]: pydantic's validation of the raw
    arguments, answering the validated model or the text of its
    ValidationError. *)
Variable model_validate : Value -> string + ExecuteArgs.

Definition handle_mcp_request (req : JsonRpcRequest)
    (execute_callable : ExecuteArgs -> M Value) : list Event * Value :=
  let method := req_method req in
  let params := items_of (req_params req) in
  if String.eqb method "tools/list" then
    ([], _rpc_ok (req_id req) tools_list_result)
  else if String.eqb method "tools/call" then
    let name := default VNone (dict_get params "name") in
    if negb (match name with
             | VStr s => String.eqb s "bigquery.execute"
             | _ => false
             end)
    then ([], _rpc_err (req_id req) (-32601) ("Unknown tool: " +:+ py_str name))
    else
      let raw_args := default (VDict []) (dict_get params "arguments") in
      match model_validate raw_args with
      | inl e => ([], _rpc_err (req_id req) (-32602) ("Invalid params: " +:+ e))
      | inr parsed =>
          match execute_callable parsed with
          | (t, inr result) => (t, _rpc_ok (req_id req) result)
          | (t, inl e) => (t, _rpc_err (req_id req) (-32000) (exn_str e))
          end
      end
  else ([], _rpc_err (req_id req) (-32601) ("Unknown method: " +:+ method)).

End Dispatch.

End McpProtocol.

(** ** app/main.py: the two request handlers *)

Module Main.

Section App.

Context {L : Lib}.
Variable settings : Settings.
Variable client : Client.
Variable policy_engine : Policy.PolicyDoc.
Variable model_validate : Value -> string + ExecuteArgs.

(** [policy_engine.assert_allowed(principal=principal,
      operation=args.operation.value, dataset=args.dataset,
      table=args.table)] *)
Definition authorize (principal : string) (args : ExecuteArgs) : M unit :=
  emit (EvPolicy principal (Operation_value (operation args))
                 (dataset args) (table args))
       (Policy.assert_allowed policy_engine principal
          (Operation_value (operation args)) (dataset args) (table args)).

Definition execute_rest (args : ExecuteArgs) (principal : string) : M Value :=
  run authorize principal args in
  let* result := BigQueryService.execute settings client args in
  ret (VDict [("principal", VStr principal); ("result", result)]).


(** The exception handlers: status code and body of the response to a
    request whose handler raised; 500 is the framework's answer to an
    exception without a handler. *)
Definition error_response (e : Exn) : Z * Value :=
  match e with
  | PermissionError m => (403, VDict [("detail", VStr m)])
  | ValueError m => (400, VDict [("detail", VStr m)])
  | OtherError m => (500, VStr "Internal Server Error")
  end.

Definition rest_response (m : M Value) : Z * Value :=
  match outcome m with
  | inr body => (200, body)
  | inl e => error_response e
  end.

End App.

End Main.

(** ** Reading a response envelope *)

Module Envelope.

(** [resp["id"]] *)
Definition envelope_id (resp : Value) : option Value :=
  match resp with
  | VDict d => dict_get d "id"
  | _ => None
  end.

(** [[t["name"] for t in resp["result"]["tools"]]] *)
Definition tool_names (resp : Value) : option (list (option Value)) :=
  match resp with
  | VDict d =>
      match dict_get d "result" with
      | Some (VDict r) =>
          match dict_get r "tools" with
          | Some (VList tools) =>
              Some (map (fun t => match t with
                                  | VDict td => dict_get td "name"
                                  | _ => None
                                  end) tools)
          | _ => None
          end
      | _ => None
      end
  | _ => None
  end.

Definition is_error (resp : Value) : bool :=
  match resp with
  | VDict d => match dict_get d "error" with Some _ => true | None => false end
  | _ => false
  end.

(** [resp["error"]["code"]] and [resp["error"]["message"]] *)
Definition error_code (resp : Value) : option Value :=
  match resp with
  | VDict d =>
      match dict_get d "error" with
      | Some (VDict e) => dict_get e "code"
      | _ => None
      end
  | _ => None
  end.

Definition error_message (resp : Value) : option Value :=
  match resp with
  | VDict d =>
      match dict_get d "error" with
      | Some (VDict e) => dict_get e "message"
      | _ => None
      end
  | _ => None
  end.

(** [resp["result"]] *)
Definition envelope_result (resp : Value) : option Value :=
  match resp with
  | VDict d => dict_get d "result"
  | _ => None
  end.

End Envelope.

(** ** The specification's wording, for comparison with the code *)

Module Spec.

Import BqPure.

Fixpoint all_chars (p : ascii -> bool) (s : string) : bool :=
  match s with
  | EmptyString => true
  | String c s' => p c && all_chars p s'
  end.

(** "length 1-128, leading letter/underscore, remaining
    alphanumerics/underscore" *)
Definition identifier (s : string) : bool :=
  match s with
  | EmptyString => false
  | String c rest =>
      ident_start c && all_chars ident_char rest
      && (String.length s <=? 128)%nat
  end.

(** The pieces a generated statement is made of. A token has no room
    for a filter value, a set-value or a limit. *)
Inductive Token :=
| Kw (text : string)            (* fixed text of the statement *)
| Project                       (* the configured project id *)
| Ident (name : string)         (* a dataset, table or column name *)
| Placeholder (prefix : string) (i : nat)   (* @f0, @s1, ... *)
| LimitPlaceholder.             (* @limit *)

Definition keywords : list string :=
  ["SELECT "; "*"; ", "; " FROM "; " WHERE "; " AND "; " = "; " LIMIT ";
   "DELETE FROM "; "`"; ".";
   nl +:+ "        UPDATE "; nl +:+ "        SET ";
   nl +:+ "        WHERE "; nl +:+ "        "].

Definition token_ok (t : Token) : Prop :=
  match t with
  | Kw text => In text keywords
  | Project => True
  | Ident name => IDENT_RE_match name = true
  | Placeholder prefix _ => In prefix ["f"; "s"; "w"; "d"]
  | LimitPlaceholder => True
  end.

Definition render_token (project : string) (t : Token) : string :=
  match t with
  | Kw text => text
  | Project => project
  | Ident name => name
  | Placeholder prefix i => "@" +:+ prefix +:+ str_nat i
  | LimitPlaceholder => "@limit"
  end.

Fixpoint render (project : string) (ts : list Token) : string :=
  match ts with
  | [] => ""
  | t :: ts' => render_token project t +:+ render project ts'
  end.

Fixpoint sep_by {A} (sep : list A) (groups : list (list A)) : list A :=
  match groups with
  | [] => []
  | [g] => g
  | g :: gs => (g ++ sep ++ sep_by sep gs)%list
  end.

Definition table_tokens (dataset table : string) : list Token :=
  [Kw "`"; Project; Kw "."; Ident dataset; Kw "."; Ident table; Kw "`"].

Definition column_tokens (col : string) : list Token :=
  [Kw "`"; Ident col; Kw "`"].

(** [`k0` = @p0 SEP `k1` = @p1 ...] from the keys alone *)
Fixpoint predicate_groups (prefix : string) (i : nat) (keys : list string)
    : list (list Token) :=
  match keys with
  | [] => []
  | k :: keys' =>
      (column_tokens k ++ [Kw " = "; Placeholder prefix i])%list
      :: predicate_groups prefix (S i) keys'
  end.

Definition keys_of (d : option (list (string * Value))) : list string :=
  map fst (items_of d).

Definition select_tokens (args : ExecuteArgs) : list Token :=
  ([Kw "SELECT "] ++
   (if truthy (columns args)
    then sep_by [Kw ", "] (map column_tokens (items_of (columns args)))
    else [Kw "*"]) ++
   [Kw " FROM "] ++ table_tokens (dataset args) (table args) ++
   (if truthy (filters args)
    then Kw " WHERE " ::
         sep_by [Kw " AND "] (predicate_groups "f" 0 (keys_of (filters args)))
    else []) ++
   [Kw " LIMIT "; LimitPlaceholder])%list.

Definition update_tokens (args : ExecuteArgs) : list Token :=
  ([Kw (nl +:+ "        UPDATE ")] ++
   table_tokens (dataset args) (table args) ++
   [Kw (nl +:+ "        SET ")] ++
   sep_by [Kw ", "] (predicate_groups "s" 0 (keys_of (set_values args))) ++
   [Kw (nl +:+ "        WHERE ")] ++
   sep_by [Kw " AND "] (predicate_groups "w" 0 (keys_of (filters args))) ++
   [Kw (nl +:+ "        ")])%list.

Definition delete_tokens (args : ExecuteArgs) : list Token :=
  ([Kw "DELETE FROM "] ++ table_tokens (dataset args) (table args) ++
   (if truthy (filters args)
    then Kw " WHERE " ::
         sep_by [Kw " AND "] (predicate_groups "d" 0 (keys_of (filters args)))
    else []))%list.



(** One typed parameter per value, named like its placeholder. *)
Fixpoint bound (prefix : string) (i : nat) (items : list (string * Value))
    : list ScalarQueryParameter :=
  match items with
  | [] => []
  | (_, v) :: items' =>
      mkParam (prefix +:+ str_nat i) (_param_type v) v
      :: bound prefix (S i) items'
  end.







End Spec.

(** ** Concrete requests and collaborators used in the examples *)

Module Sample.

Definition lib : Lib :=
  mkLib (fun _ => "0") (fun _ => "1970-01-01T00:00:00")
        (fun _ => "1970-01-01") (fun _ => "00:00:00") (fun _ => "<object>").

Definition settings : Settings :=
  mkSettings "mcp-bigquery-server" "proj" "EU" "{}" 1000 false.

Definition settings_full_delete : Settings :=
  mkSettings "mcp-bigquery-server" "proj" "EU" "{}" 1000 true.

(** A store that answers every call with an empty, successful result. *)
Definition client : Client :=
  mkClient (fun _ _ _ => inr (mkQueryJob "job-1" [] (Some 0)))
           (fun table_id _ _ => inr table_id)
           (fun _ _ => inr []).

Definition args (op : Operation) (dataset table : string)
    (filters : option (list (string * Value))) (limit : Z)
    (set_values : option (list (string * Value))) : ExecuteArgs :=
  mkExecuteArgs op dataset table None filters limit None true None set_values.

(** [{operations:[SELECT], datasets:{"sales":["orders"]}}] *)
Definition select_orders : Policy.Rules :=
  Policy.mkRules (Some [VStr "SELECT"])
                 (Some ({[ "sales" := ["orders"] ]} : gmap string (list string))).

Definition analyst_policy : Policy.PolicyDoc :=
  Policy.mkPolicyDoc
    (Some ({[ "analyst" := select_orders ]} : gmap string Policy.Rules)) None.

(** A policy that lets "admin" do everything on dataset "sales". *)
Definition admin_policy : Policy.PolicyDoc :=
  Policy.mkPolicyDoc
    (Some ({[ "admin" :=
              Policy.mkRules
                (Some [VStr "SELECT"; VStr "UPDATE"; VStr "DELETE"])
                (Some ({[ "sales" := ["*"] ]} : gmap string (list string)))
           ]} : gmap string Policy.Rules))
    None.

Definition no_validation : Value -> string + ExecuteArgs :=
  fun _ => inl "validation error".


(** A store that answers every query with two rows holding a decimal,
    a date and a nested list. *)
Definition stored_rows : list (list (string * Value)) :=
  [[("amount", VDecimal (mkDecimal false 1250 (-2)));
    ("day", VDate (mkDate 2024 1 31))];
   [("amount", VInt 3);
    ("tags", VList [VStr "a"; VTime (mkTime 12 0 0 0 None)])]].

Definition client_with_rows : Client :=
  mkClient (fun _ _ _ => inr (mkQueryJob "job-2" stored_rows None))
           (fun table_id _ _ => inr table_id)
           (fun _ _ => inr []).

End Sample.

(** ** app/models.py: the validators of TableField *)

Module TableFieldValidators.

(** [upper_type] *)
Definition upper_type (v : string) : string := upper v.

Definition MODES : list string := ["NULLABLE"; "REQUIRED"; "REPEATED"].

(** [upper_mode] *)
Definition upper_mode (v : string) : Exn + string :=
  let v := upper v in
  if negb (existsb (String.eqb v) MODES)
  then inl (ValueError "mode must be one of NULLABLE, REQUIRED, REPEATED")
  else inr v.

(** Construction of a [TableField] from its three raw fields, [mode]
    already replaced by its default "NULLABLE" when left out. *)
Definition make_TableField (name type mode : string) : Exn + TableField :=
  ebind (upper_mode mode) (fun m => inr (mkTableField name (upper_type type) m)).

End TableFieldValidators.

(** ** app/auth.py *)

Module Auth.

Inductive AuthMode := id_token | header | none.

(** The two settings [auth.py] reads. *)
Record AuthSettings := mkAuthSettings
  { auth_mode : AuthMode; mcp_audience : option string }.

Record HTTPAuthorizationCredentials := mkCredentials
  { scheme : string; credentials : string }.

Record HTTPException := mkHTTPException
  { status_code : Z; detail : string }.

(** The claims of a verified token that the code reads:
    [info.get("email")] and [info.get("sub")]. *)
Record TokenInfo := mkTokenInfo
  { email : option string; sub : option string }.

(** [s or t] on optional strings: [None] and the empty string are false. *)
Definition str_or (s : option string) (t : string) : string :=
  match s with
  | Some (String c r) => String c r
  | _ => t
  end.

Section Principal.

Variable settings : AuthSettings.

(** [id_token.verify_oauth2_token(token, Request(), audience)]: the
    identity provider's answer, the claims or the text of the error. *)
Variable verify_oauth2_token : string -> option string -> string + TokenInfo.

Definition _get_principal
    (creds : option HTTPAuthorizationCredentials) (x_principal : option string)
    : HTTPException + string :=
  match auth_mode settings with
  | none => inr "anonymous"
  | header =>
      match x_principal with
      | Some (String c r) => inr (lower (strip (String c r)))
      | _ => inl (mkHTTPException 401 "Missing X-Principal header")
      end
  | id_token =>
      match creds with
      | None => inl (mkHTTPException 401 "Missing Bearer token")
      | Some c =>
          if negb (String.eqb (lower (scheme c)) "bearer")
          then inl (mkHTTPException 401 "Missing Bearer token")
          else
            let token := strip (credentials c) in
            match token with
            | EmptyString => inl (mkHTTPException 401 "Missing Bearer token")
            | _ =>
                let audience :=
                  match mcp_audience settings with
                  | Some (String a r) => Some (String a r)
                  | _ => None
                  end in
                match verify_oauth2_token token audience with
                | inl e => inl (mkHTTPException 401 ("Invalid ID token: " +:+ e))
                | inr info =>
                    let principal :=
                      lower (strip (str_or (email info) (str_or (sub info) ""))) in
                    match principal with
                    | EmptyString =>
                        inl (mkHTTPException 401 "No principal in token")
                    | _ => inr principal
                    end
                end
            end
      end
  end.

End Principal.

End Auth.

(** ** Forms of values and of parameter lists *)

Module Forms.

(** No decimal, datetime, date or time is left at any position reached
    through lists and mappings. Tuples are leaves: normalization does not
    look inside them. *)
Fixpoint plain (v : Value) : bool :=
  match v with
  | VDecimal _ | VDatetime _ | VDate _ | VTime _ => false
  | VList items => forallb plain items
  | VDict items => forallb (fun kv => plain (snd kv)) items
  | _ => true
  end.

(** The keys of a mapping, in order; the length of a list. *)
Definition keys (v : Value) : list string :=
  match v with
  | VDict items => map fst items
  | _ => []
  end.

Definition names (params : list ScalarQueryParameter) : list string :=
  map sp_name params.

(** [s.isascii()] *)
Fixpoint is_ascii (s : string) : bool :=
  match s with
  | EmptyString => true
  | String c s' => (nat_of_ascii c <? 128)%nat && is_ascii s'
  end.

End Forms.

(** * Properties *)

Import BqPure.

(** ** Strings *)

Lemma append_nil_r (s : string) : s +:+ "" = s.
Proof.
  induction s as [ | c s IH ]; [ reflexivity | ].
  change (String c (s +:+ "") = String c s). now rewrite IH.
Qed.

Lemma append_assoc (a b c : string) : (a +:+ b) +:+ c = a +:+ (b +:+ c).
Proof.
  induction a as [ | x a IH ]; [ reflexivity | ].
  change (String x ((a +:+ b) +:+ c) = String x (a +:+ (b +:+ c))).
  now rewrite IH.
Qed.

(** ** Typed-parameter inference *)

(** C8. The inferred parameter type follows the precedence
    boolean, integer, floating point, decimal, datetime, date, and STRING
    for anything else. The order matters: a boolean is also an instance of
    the integer class and a datetime is also an instance of the date class,
    yet they are typed BOOL and TIMESTAMP. *)
Theorem C8_param_type_precedence :
  (forall v : Value,
     _param_type v =
     match v with
     | VBool _ => "BOOL"
     | VInt _ => "INT64"
     | VFloat _ => "FLOAT64"
     | VDecimal _ => "NUMERIC"
     | VDatetime _ => "TIMESTAMP"
     | VDate _ => "DATE"
     | _ => "STRING"
     end) /\
  (forall b, isinstance (VBool b) Cint = true /\ _param_type (VBool b) = "BOOL") /\
  (forall d, isinstance (VDatetime d) Cdate = true /\
             _param_type (VDatetime d) = "TIMESTAMP").
Proof.
  split; [ intros v; destruct v; reflexivity | ].
  split; intros; split; reflexivity.
Qed.

(** ** Result normalization *)

Section ValueInduction.

Variable P : Value -> Prop.
Hypothesis Hnone : P VNone.
Hypothesis Hbool : forall b, P (VBool b).
Hypothesis Hint : forall n, P (VInt n).
Hypothesis Hfloat : forall f, P (VFloat f).
Hypothesis Hstr : forall s, P (VStr s).
Hypothesis Hbytes : forall b, P (VBytes b).
Hypothesis Hdecimal : forall d, P (VDecimal d).
Hypothesis Hdatetime : forall d, P (VDatetime d).
Hypothesis Hdate : forall d, P (VDate d).
Hypothesis Htime : forall t, P (VTime t).
Hypothesis Hlist : forall items, Forall P items -> P (VList items).
Hypothesis Htuple : forall items, Forall P items -> P (VTuple items).
Hypothesis Hdict :
    forall items, Forall (fun kv => P (snd kv)) items -> P (VDict items).

  (** Induction on a value through its nested lists and mappings. *)
Lemma Value_nested_ind : forall v, P v.
Proof using All.
    fix IH 1. intros v. destruct v as [ | | | | | | | | | | items | items | items ].
    - exact Hnone.
    - apply Hbool.
    - apply Hint.
    - apply Hfloat.
    - apply Hstr.
    - apply Hbytes.
    - apply Hdecimal.
    - apply Hdatetime.
    - apply Hdate.
    - apply Htime.
    - apply Hlist. induction items as [ | x xs IHxs ]; constructor.
      + apply IH.
      + exact IHxs.
    - apply Htuple. induction items as [ | x xs IHxs ]; constructor.
      + apply IH.
      + exact IHxs.
    - apply Hdict. induction items as [ | [k x] xs IHxs ]; constructor.
      + simpl. apply IH.
      + exact IHxs.
Qed.

End ValueInduction.

(** C10. Normalizing a result value twice gives what normalizing it once
    gives, for every value, through nested lists and mappings. *)
Theorem C10_normalize_idempotent {L : Lib} (v : Value) :
  _normalize_value (_normalize_value v) = _normalize_value v.
Proof.
  induction v using Value_nested_ind; try reflexivity.
  - (* list *)
    cbn. f_equal. rewrite map_map.
    induction H as [ | x xs Hx _ IH ]; [ reflexivity | ].
    cbn. rewrite Hx. f_equal. exact IH.
  - (* dict *)
    cbn. f_equal. rewrite map_map.
    induction H as [ | [k x] xs Hx _ IH ]; [ reflexivity | ].
    cbn in *. rewrite Hx. f_equal. exact IH.
Qed.

(** ** The tool-call dispatcher *)

Import Envelope.

(** Every branch of the dispatcher builds its envelope from [req.id]. *)
Lemma handle_mcp_request_id {L : Lib}
    (model_validate : Value -> string + ExecuteArgs)
    (req : JsonRpcRequest) (execute_callable : ExecuteArgs -> M Value) :
  envelope_id
    (snd (McpProtocol.handle_mcp_request model_validate req execute_callable))
  = Some (req_id req).
Proof.
  unfold McpProtocol.handle_mcp_request.
  destruct (String.eqb (req_method req) "tools/list"); [ reflexivity | ].
  destruct (String.eqb (req_method req) "tools/call"); [ | reflexivity ].
  destruct (negb _); [ reflexivity | ].
  destruct (model_validate _) as [ e | parsed ]; [ reflexivity | ].
  destruct (execute_callable parsed) as [ t [ e | result ] ]; reflexivity.
Qed.

(** C9. Whatever the method, the parameters, the outcome of validation
    and of the execution, the envelope answered carries the id of the
    request; a request that gives no id has the null id, and the envelope
    carries null. *)
Theorem C9_envelope_echoes_id {L : Lib}
    (model_validate : Value -> string + ExecuteArgs)
    (execute_callable : ExecuteArgs -> M Value) :
  (forall req : JsonRpcRequest,
     envelope_id
       (snd (McpProtocol.handle_mcp_request model_validate req execute_callable))
     = Some (req_id req)) /\
  (forall (given : option Value) (method : string)
          (params : option (list (string * Value))),
     envelope_id
       (snd (McpProtocol.handle_mcp_request model_validate
               (mkJsonRpcRequest "2.0" (id_field given) method params)
               execute_callable))
     = Some (match given with Some i => i | None => VNone end)).
Proof.
  split.
  - intros req. apply handle_mcp_request_id.
  - intros given method params. rewrite handle_mcp_request_id.
    destruct given; reflexivity.
Qed.

(** What [tools/list] answers, whatever else the request holds. *)
Lemma tools_list_response {L : Lib}
    (model_validate : Value -> string + ExecuteArgs)
    (execute_callable : ExecuteArgs -> M Value)
    (version : string) (id : Value) (params : option (list (string * Value))) :
  McpProtocol.handle_mcp_request model_validate
    (mkJsonRpcRequest version id "tools/list" params) execute_callable
  = ([], McpProtocol._rpc_ok id McpProtocol.tools_list_result).
Proof. reflexivity. Qed.

(** C5, as the specification states it, fails on a plain [tools/list]
    request: the one descriptor is not named "execute-operation". *)
Lemma C5_counterexample :
  tool_names
    (snd (McpProtocol.handle_mcp_request (L := Sample.lib) Sample.no_validation
            (mkJsonRpcRequest "2.0" (VInt 1) "tools/list" None)
            (fun _ => Store.ret VNone)))
  <> Some [Some (VStr "execute-operation")].
Proof. rewrite tools_list_response. cbn. discriminate. Qed.

(** C5, amended. A [tools/list] request, whatever its parameters, id and
    version tag, is answered without calling anything by a success
    envelope that lists exactly one tool, named "bigquery.execute", the
    name [tools/call] recognizes. *)
Theorem C5_tools_list_one_tool {L : Lib}
    (model_validate : Value -> string + ExecuteArgs)
    (execute_callable : ExecuteArgs -> M Value)
    (version : string) (id : Value) (params : option (list (string * Value))) :
  let answer :=
    McpProtocol.handle_mcp_request model_validate
      (mkJsonRpcRequest version id "tools/list" params) execute_callable in
  fst answer = [] /\
  is_error (snd answer) = false /\
  tool_names (snd answer) = Some [Some (VStr "bigquery.execute")].
Proof.
  intros answer. subst answer. rewrite tools_list_response. repeat split.
Qed.

(** ** The policy engine *)

(** C7. For a principal whose rule set allows SELECT on sales.orders
    only, (SELECT, sales, orders) is allowed and the three other requests
    are denied with a PermissionError each, naming the operation, the
    table and the dataset respectively; the three reasons differ. *)
Theorem C7_policy_example (policy : Policy.PolicyDoc) (p : string)
    (Hrules : Policy._get_rules_for_principal policy p = Sample.select_orders) :
  let denied what :=
    inl (PermissionError (what +:+ "' is not allowed for principal '" +:+ p +:+ "'")) in
  Policy.assert_allowed policy p "SELECT" "sales" "orders" = inr tt /\
  Policy.assert_allowed policy p "DELETE" "sales" "orders"
    = denied "Operation 'DELETE" /\
  Policy.assert_allowed policy p "SELECT" "sales" "invoices"
    = denied "Table 'sales.invoices" /\
  Policy.assert_allowed policy p "SELECT" "marketing" "orders"
    = denied "Dataset 'marketing" /\
  denied "Operation 'DELETE" <> denied "Table 'sales.invoices" /\
  denied "Operation 'DELETE" <> denied "Dataset 'marketing" /\
  denied "Table 'sales.invoices" <> denied "Dataset 'marketing".
Proof.
  unfold Policy.assert_allowed. rewrite Hrules.
  repeat split; try (vm_compute; reflexivity); cbn; discriminate.
Qed.

Lemma C7_policy_example_witness :
  Policy.assert_allowed Sample.analyst_policy "analyst" "SELECT" "sales" "orders"
  = inr tt.
Proof.
  apply (C7_policy_example Sample.analyst_policy "analyst").
  vm_compute. reflexivity.
Defined.

(** ** Identifier validation *)

Lemma at_dollar_cases (rest : string) :
  at_dollar rest = true <-> rest = "" \/ rest = nl.
Proof.
  split.
  - destruct rest as [ | c [ | c' rest' ] ]; cbn; intros Hd;
      [ now left | right | discriminate ].
    apply Nat.eqb_eq in Hd. unfold nl. f_equal.
    rewrite <- (ascii_nat_embedding c), Hd. reflexivity.
  - intros [ -> | -> ]; reflexivity.
Qed.

(** Names of the specification's pattern pass the code's pattern. *)
Lemma ident_tail_complete (rest : string) :
  forall n, Spec.all_chars ident_char rest = true ->
            (String.length rest <= n)%nat -> ident_tail n rest = true.
Proof.
  induction rest as [ | c rest IH ]; intros n Hall Hlen.
  - destruct n; reflexivity.
  - cbn in Hall, Hlen. apply andb_true_iff in Hall as [Hc Hrest].
    destruct n as [ | n ]; [ lia | ].
    cbn [ident_tail]. rewrite Hc, (IH n Hrest) by lia.
    apply orb_true_r.
Qed.

(** What the code's pattern lets through: a name of the specification's
    pattern, possibly followed by one newline. *)
Lemma ident_tail_sound (rest : string) :
  forall n, ident_tail n rest = true ->
    exists body, (rest = body \/ rest = body +:+ nl) /\
                 Spec.all_chars ident_char body = true /\
                 (String.length body <= n)%nat.
Proof.
  induction rest as [ | c rest IH ]; intros n Ht.
  - exists "". repeat split; [ now left | cbn; lia ].
  - destruct n as [ | n ]; cbn [ident_tail] in Ht;
      apply orb_true_iff in Ht as [Hd | Hstep]; try discriminate.
    + apply at_dollar_cases in Hd as [ Hd | Hd ]; [ discriminate | ].
      exists "". repeat split; [ now right | cbn; lia ].
    + apply at_dollar_cases in Hd as [ Hd | Hd ]; [ discriminate | ].
      exists "". repeat split; [ now right | cbn; lia ].
    + apply andb_true_iff in Hstep as [Hc Hrest].
      destruct (IH n Hrest) as (body & Hshape & Hall & Hlen).
      exists (String c body). repeat split.
      * destruct Hshape as [ -> | -> ]; [ now left | now right ].
      * cbn. now rewrite Hc, Hall.
      * cbn. lia.
Qed.

Lemma identifier_accepted (name label : string) :
  Spec.identifier name = true -> _ensure_ident name label = inr name.
Proof.
  unfold _ensure_ident, Spec.identifier, IDENT_RE_match.
  destruct name as [ | c rest ]; [ discriminate | ].
  intros Hid. apply andb_true_iff in Hid as [Hid Hlen].
  apply andb_true_iff in Hid as [Hc Hall].
  apply Nat.leb_le in Hlen. cbn in Hlen.
  rewrite Hc, (ident_tail_complete rest 127 Hall) by lia. reflexivity.
Qed.

Lemma accepted_shape (name label out : string) :
  _ensure_ident name label = inr out ->
  out = name /\
  exists body, (name = body \/ name = body +:+ nl) /\
               Spec.identifier body = true.
Proof.
  unfold _ensure_ident, IDENT_RE_match.
  destruct name as [ | c rest ]; [ discriminate | ].
  destruct (ident_start c) eqn:Hc; [ | discriminate ].
  destruct (ident_tail 127 rest) eqn:Ht; [ | discriminate ].
  cbn. intros [= <-]. split; [ reflexivity | ].
  destruct (ident_tail_sound rest 127 Ht) as (body & Hshape & Hall & Hlen).
  exists (String c body). split.
  - destruct Hshape as [ -> | -> ]; [ now left | now right ].
  - unfold Spec.identifier. rewrite Hc, Hall. cbn.
    apply Nat.leb_le. lia.
Qed.

(** C6. The code at the failing input: a valid name followed by one
    newline is not an identifier of the pattern (it has a character that is
    neither alphanumeric nor an underscore), and validation returns it
    as valid instead of raising; a SELECT on such a table name reaches the
    store with the newline inside the table reference. *)
Theorem C6_trailing_newline_accepted :
  let name := "orders" +:+ nl in
  Spec.identifier name = false /\
  _ensure_ident name "table" = inr name /\
  trace (BigQueryService.execute (L := Sample.lib) Sample.settings
           Sample.client (Sample.args SELECT "sales" name None 100 None))
  = [EvStore (Query ("SELECT * FROM `proj.sales.orders" +:+ nl +:+
                     "` LIMIT @limit") "EU"
                    [mkParam "limit" "INT64" (VInt 100)])].
Proof. repeat split. Qed.

(** ** The SELECT limit *)

Import BigQueryService.

(** The clauses of the limit rule that the code keeps: the configured
    maximum when the requested limit exceeds it, 1 when the requested limit
    is negative (for a maximum of at least 1), 100 clamped to the maximum
    when the limit is absent. *)
Lemma select_limit_clauses (settings : Settings) (args : ExecuteArgs) :
  (max_select_limit settings < limit args ->
   select_limit settings args = max_select_limit settings) /\
  (limit args < 0 -> 1 <= max_select_limit settings ->
   select_limit settings args = 1) /\
  (limit args = limit_field None ->
   select_limit settings args = Z.min 100 (max_select_limit settings)).
Proof.
  unfold select_limit, limit_field, default_limit.
  destruct (Z.eqb_spec (limit args) 0) as [ -> | Hnz ];
    repeat split; intros; lia.
Qed.

(** C3. The code at the failing input: against a maximum of 1000 a
    requested limit of 0 is bound as 100, not as 1, while its neighbours -1
    and 1 are both bound as 1; the SELECT sent for limit 0 carries the
    parameter limit = 100. *)
Theorem C3_zero_limit_bound_as_100 :
  let request n := Sample.args SELECT "sales" "orders" None n None in
  select_limit Sample.settings (request (-1)) = 1 /\
  select_limit Sample.settings (request 0) = 100 /\
  select_limit Sample.settings (request 1) = 1 /\
  trace (execute (L := Sample.lib) Sample.settings Sample.client (request 0))
  = [EvStore (Query "SELECT * FROM `proj.sales.orders` LIMIT @limit" "EU"
                    [mkParam "limit" "INT64" (VInt 100)])].
Proof. repeat split. Qed.

(** ** The guards of UPDATE and DELETE *)

(** The policy engine denies with a PermissionError and nothing else. *)
Lemma assert_allowed_denial (policy : Policy.PolicyDoc)
    (principal operation dataset table : string) (e : Exn) :
  Policy.assert_allowed policy principal operation dataset table = inl e ->
  exists msg, e = PermissionError msg.
Proof.
  unfold Policy.assert_allowed.
  destruct (negb _); [ intros [= <-]; eauto | ].
  destruct (_ !! dataset) as [ tables | ]; [ | intros [= <-]; eauto ].
  destruct (existsb _ tables); [ discriminate | ].
  destruct (negb _); [ intros [= <-]; eauto | discriminate ].
Qed.

(** An UPDATE that lacks set_values or filters raises before the table
    reference is built. *)
Lemma update_guard {L : Lib} (settings : Settings) (client : Client)
    (args : ExecuteArgs) :
  truthy (set_values args) = false \/ truthy (filters args) = false ->
  _update settings client args =
  ([], inl (ValueError
              (if truthy (set_values args)
               then "filters are required for UPDATE (safe default)"
               else "set_values is required for UPDATE"))).
Proof.
  unfold _update. intros [ Hs | Hf ].
  - rewrite Hs. reflexivity.
  - rewrite Hf. destruct (truthy (set_values args)); reflexivity.
Qed.

(** C2, as the specification states it, fails: an UPDATE without
    set_values and filters, sent by a principal who may only SELECT, is
    answered by the policy engine, not by validation. *)
Lemma C2_counterexample :
  let r :=
    Main.execute_rest (L := Sample.lib) Sample.settings Sample.client
      Sample.analyst_policy
      (Sample.args UPDATE "sales" "orders" None 100 None) "analyst" in
  ~ (existsb is_policy_event (trace r) = false /\
     exists msg, outcome r = inl (ValueError msg)).
Proof. vm_compute. intros [ Hcheck _ ]. discriminate. Qed.

(** C2, amended. For every UPDATE request with empty or absent
    set_values or filters, the policy engine is asked first and nothing
    else is called: no store interaction is attempted. When the engine
    denies, the request fails with its PermissionError; when it allows, the
    request fails with the ValueError of the guard, answered 400. *)
Theorem C2_update_guard_after_policy {L : Lib}
    (settings : Settings) (client : Client) (policy : Policy.PolicyDoc)
    (args : ExecuteArgs) (principal : string)
    (Hop : operation args = UPDATE)
    (Hempty : truthy (set_values args) = false \/ truthy (filters args) = false) :
  let r := Main.execute_rest settings client policy args principal in
  let verdict :=
    Policy.assert_allowed policy principal "UPDATE" (dataset args) (table args) in
  trace r = [EvPolicy principal "UPDATE" (dataset args) (table args)] /\
  existsb is_store_event (trace r) = false /\
  (forall e, verdict = inl e ->
     outcome r = inl e /\ exists msg, e = PermissionError msg) /\
  (verdict = inr tt ->
     exists msg, outcome r = inl (ValueError msg) /\
                 fst (Main.rest_response r) = 400).
Proof.
  intros r verdict. subst r verdict.
  unfold Main.execute_rest, Main.authorize, execute, Main.rest_response.
  rewrite Hop. cbn [Operation_value].
  rewrite (update_guard settings client args Hempty).
  destruct (Policy.assert_allowed policy principal "UPDATE" _ _)
    as [ e | [] ] eqn:Hverdict; cbn.
  - split; [ reflexivity | ]. split; [ reflexivity | ]. split.
    + intros e' [= <-]. split; [ reflexivity | ].
      eapply assert_allowed_denial, Hverdict.
    + discriminate.
  - split; [ reflexivity | ]. split; [ reflexivity | ]. split.
    + discriminate.
    + intros _. eexists. split; reflexivity.
Qed.

Lemma C2_update_guard_after_policy_witness :
  let r :=
    Main.execute_rest (L := Sample.lib) Sample.settings Sample.client
      Sample.admin_policy
      (Sample.args UPDATE "sales" "orders" None 100
         (Some [("status", VStr "done")])) "admin" in
  trace r = [EvPolicy "admin" "UPDATE" "sales" "orders"] /\
  existsb is_store_event (trace r) = false.
Proof.
  pose proof (C2_update_guard_after_policy (L := Sample.lib)
                Sample.settings Sample.client Sample.admin_policy
                (Sample.args UPDATE "sales" "orders" None 100
                   (Some [("status", VStr "done")])) "admin"
                eq_refl (or_intror eq_refl)) as (Htrace & Hstore & _).
  split; assumption.
Defined.

(** C4, as the specification states it, fails: with the flag disabled, a
    DELETE without filters that the policy engine allows fails with a
    ValueError, answered 400, not with a PermissionError, answered 403. *)
Lemma C4_counterexample :
  let r :=
    Main.execute_rest (L := Sample.lib) Sample.settings Sample.client
      Sample.admin_policy
      (Sample.args DELETE "sales" "orders" None 100 None) "admin" in
  outcome r = inl (ValueError "DELETE without filters is blocked by policy") /\
  fst (Main.rest_response r) = 400 /\
  ~ (exists msg, outcome r = inl (PermissionError msg)).
Proof.
  vm_compute. repeat split. intros [ msg Hmsg ]. discriminate.
Qed.

(** C4, amended. For every DELETE request without filters: when the
    flag is disabled the service raises a ValueError (answered 400)
    without calling the store, and, for a valid dataset and table, that
    error is the guard's; when the flag is enabled, every statement sent is
    DELETE FROM followed by the table reference and nothing else, with no
    parameter, and for a valid dataset and table it is sent. *)
Theorem C4_delete_without_filters {L : Lib}
    (settings : Settings) (client : Client) (args : ExecuteArgs)
    (Hop : operation args = DELETE)
    (Hnone : truthy (filters args) = false) :
  let r := execute settings client args in
  let statement :=
    "DELETE FROM `" +:+ project_id settings +:+ "." +:+ dataset args +:+ "."
      +:+ table args +:+ "`" in
  let valid :=
    IDENT_RE_match (dataset args) && IDENT_RE_match (table args) in
  (allow_full_table_delete settings = false ->
     trace r = [] /\
     (exists msg, outcome r = inl (ValueError msg) /\
                  fst (Main.error_response (ValueError msg)) = 400) /\
     (valid = true ->
      outcome r = inl (ValueError "DELETE without filters is blocked by policy"))) /\
  (allow_full_table_delete settings = true ->
     (forall sql location params,
        In (EvStore (Query sql location params)) (trace r) ->
        sql = statement /\ params = []) /\
     (valid = true ->
      trace r = [EvStore (Query statement (bigquery_location settings) [])])).
Proof.
  intros r statement valid. subst r statement valid.
  unfold execute. rewrite Hop. unfold _delete, _table_ref, _ensure_ident.
  rewrite Hnone.
  destruct (IDENT_RE_match (dataset args)); cbn;
    [ destruct (IDENT_RE_match (table args)); cbn | ].
  - split; intros Hflag; rewrite Hflag; cbn.
    + repeat split; eauto.
    + rewrite append_nil_r.
      destruct (query client _ _ _); cbn; split.
      * intros sql location params [ [= <- _ <-] | [] ]. split; reflexivity.
      * reflexivity.
      * intros sql location params [ [= <- _ <-] | [] ]. split; reflexivity.
      * reflexivity.
  - split; intros Hflag.
    + repeat split; eauto; discriminate.
    + split; [ intros sql location params [] | discriminate ].
  - split; intros Hflag.
    + repeat split; eauto; discriminate.
    + split; [ intros sql location params [] | discriminate ].
Qed.

Lemma C4_delete_without_filters_witness :
  trace (execute (L := Sample.lib) Sample.settings_full_delete Sample.client
           (Sample.args DELETE "sales" "orders" None 100 None))
  = [EvStore (Query "DELETE FROM `proj.sales.orders`" "EU" [])].
Proof.
  pose proof (C4_delete_without_filters (L := Sample.lib)
                Sample.settings_full_delete Sample.client
                (Sample.args DELETE "sales" "orders" None 100 None)
                eq_refl eq_refl) as [ _ Henabled ].
  destruct (Henabled eq_refl) as [ _ Hsent ].
  exact (Hsent eq_refl).
Defined.

(** ** Generated statements *)

Lemma falsy_items {A} (o : option (list A)) :
  truthy o = false -> items_of o = [].
Proof. destruct o as [ [ | x l ] | ]; [ reflexivity | discriminate | reflexivity ]. Qed.

Lemma bind_lift_inr {A B} (a : A) (k : A -> M B) :
  Store.bind (lift (inr a)) k = k a.
Proof. unfold Store.bind, lift. destruct (k a). reflexivity. Qed.

Lemma bind_lift_inl {A B} (e : Exn) (k : A -> M B) :
  Store.bind (lift (inl e)) k = ([], inl e).
Proof. reflexivity. Qed.

Lemma bind_emit {A B} (ev : Event) (r : Exn + A) (k : A -> M B) :
  Store.bind (emit ev r) k =
  match r with
  | inl e => ([ev], inl e)
  | inr a => (ev :: trace (k a), outcome (k a))
  end.
Proof. destruct r as [ e | a ]; cbn; [ | destruct (k a) ]; reflexivity. Qed.

Lemma render_app (project : string) (a b : list Spec.Token) :
  Spec.render project (a ++ b)
  = Spec.render project a +:+ Spec.render project b.
Proof.
  induction a as [ | t a IH ]; [ reflexivity | ].
  cbn [Spec.render app]. rewrite IH, append_assoc. reflexivity.
Qed.

(** Joining rendered groups is rendering the groups with the separator
    between them. *)
Lemma join_render (project : string) (sep : list Spec.Token)
    (groups : list (list Spec.Token)) :
  join (Spec.render project sep) (map (Spec.render project) groups)
  = Spec.render project (Spec.sep_by sep groups).
Proof.
  induction groups as [ | g [ | g' gs ] IH ]; [ reflexivity | reflexivity | ].
  change (Spec.render project g +:+ Spec.render project sep +:+
          join (Spec.render project sep)
               (map (Spec.render project) (g' :: gs))
          = Spec.render project (g ++ sep ++ Spec.sep_by sep (g' :: gs))).
  rewrite IH, !render_app. reflexivity.
Qed.

Lemma sep_by_ok (sep : list Spec.Token) (groups : list (list Spec.Token)) :
  Forall Spec.token_ok sep -> Forall (Forall Spec.token_ok) groups ->
  Forall Spec.token_ok (Spec.sep_by sep groups).
Proof.
  intros Hsep Hgroups.
  induction Hgroups as [ | g gs Hg Hgs IH ]; [ constructor | ].
  destruct gs as [ | g' gs ]; [ exact Hg | ].
  cbn [Spec.sep_by]. apply Forall_app. split; [ exact Hg | ].
  apply Forall_app. split; [ exact Hsep | exact IH ].
Qed.

Ltac in_list := solve [ repeat first [ left; reflexivity | right ] ].

Lemma ensure_ident_inr (name label out : string) :
  _ensure_ident name label = inr out ->
  out = name /\ IDENT_RE_match name = true.
Proof.
  unfold _ensure_ident. destruct (IDENT_RE_match name); [ | discriminate ].
  intros [= <-]. split; reflexivity.
Qed.

Section Statements.

Context {L : Lib}.
Variable settings : Settings.
Variable client : Client.

Let project := project_id settings.

Lemma table_ref_shape (dataset table out : string) :
  _table_ref settings dataset table = inr out ->
  out = Spec.render project (Spec.table_tokens dataset table) /\
  Forall Spec.token_ok (Spec.table_tokens dataset table).
Proof.
  unfold _table_ref.
  destruct (_ensure_ident dataset "dataset") as [ e | ds ] eqn:Hds;
    [ discriminate | ].
  destruct (_ensure_ident table "table") as [ e | tb ] eqn:Htb;
    [ discriminate | ].
  apply ensure_ident_inr in Hds as [ -> Hds ].
  apply ensure_ident_inr in Htb as [ -> Htb ].
  cbn [ebind]. intros [= <-]. split.
  - cbn [Spec.render Spec.table_tokens Spec.render_token].
    rewrite append_nil_r. reflexivity.
  - repeat constructor; try assumption; cbn; in_list.
Qed.

Lemma col_ref_shape (col out : string) :
  _col_ref col = inr out ->
  out = Spec.render project (Spec.column_tokens col) /\
  Forall Spec.token_ok (Spec.column_tokens col).
Proof.
  unfold _col_ref.
  destruct (_ensure_ident col "column") as [ e | c ] eqn:Hc; [ discriminate | ].
  apply ensure_ident_inr in Hc as [ -> Hc ].
  cbn [ebind]. intros [= <-]. split.
  - reflexivity.
  - repeat constructor; try assumption; cbn; in_list.
Qed.

Lemma columns_shape (cols : list string) (out : list string) :
  emap _col_ref cols = inr out ->
  out = map (Spec.render project) (map Spec.column_tokens cols) /\
  Forall (Forall Spec.token_ok) (map Spec.column_tokens cols).
Proof.
  revert out. induction cols as [ | c cols IH ]; intros out.
  - intros [= <-]. split; constructor.
  - cbn [emap].
    destruct (_col_ref c) as [ e | r ] eqn:Hc; [ discriminate | ].
    destruct (emap _col_ref cols) as [ e | rs ] eqn:Hcs; [ discriminate | ].
    cbn [ebind]. intros [= <-].
    apply col_ref_shape in Hc as [ -> Hok ].
    destruct (IH rs eq_refl) as [ -> Hoks ].
    split; [ reflexivity | constructor; assumption ].
Qed.

Lemma predicate_loop_shape (prefix : string)
    (Hprefix : In prefix ["f"; "s"; "w"; "d"])
    (items : list (string * Value)) :
  forall i out,
    predicate_loop prefix i items = inr out ->
    fst out = map (Spec.render project)
                  (Spec.predicate_groups prefix i (map fst items)) /\
    Forall (Forall Spec.token_ok)
           (Spec.predicate_groups prefix i (map fst items)) /\
    snd out = Spec.bound prefix i items.
Proof.
  induction items as [ | [k v] items IH ]; intros i out.
  - intros [= <-]. repeat split; constructor.
  - cbn [predicate_loop].
    destruct (_col_ref k) as [ e | col ] eqn:Hk; [ discriminate | ].
    cbn [ebind].
    destruct (predicate_loop prefix (S i) items) as [ e | r ] eqn:Hr;
      [ discriminate | ].
    cbn [ebind]. intros [= <-].
    apply col_ref_shape in Hk as [ -> Hok ].
    destruct (IH (S i) r Hr) as (Hparts & Hoks & Hparams).
    cbn [fst snd map Spec.predicate_groups Spec.bound].
    rewrite Hparts, Hparams. repeat split.
    + f_equal. rewrite render_app.
      cbn [Spec.render Spec.render_token]. rewrite append_nil_r.
      reflexivity.
    + constructor; [ | exact Hoks ].
      apply Forall_app. split; [ exact Hok | ].
      constructor; [ cbn; in_list | ].
      constructor; [ exact Hprefix | constructor ].
Qed.

End Statements.

Lemma join_render_kw (project text : string) (groups : list (list Spec.Token)) :
  join text (map (Spec.render project) groups)
  = Spec.render project (Spec.sep_by [Spec.Kw text] groups).
Proof.
  rewrite <- join_render. cbn [Spec.render Spec.render_token].
  rewrite append_nil_r. reflexivity.
Qed.

(** The only event of a computation that ends with one call to the
    client is that call. *)
Lemma sent_by_emit {A B} (ev : Event) (r : Exn + A) (k : A -> M B) (x : Event) :
  (forall a, trace (k a) = []) ->
  In x (trace (Store.bind (emit ev r) k)) -> x = ev.
Proof.
  intros Hk. destruct r as [ e | a ]; cbn.
  - intros [ <- | [] ]. reflexivity.
  - specialize (Hk a). destruct (k a) as [ t out ]. cbn in Hk. subst t.
    cbn. intros [ <- | [] ]. reflexivity.
Qed.

Section SentStatements.

Context {L : Lib}.
Variable settings : Settings.
Variable client : Client.

Lemma select_statement (args : ExecuteArgs) (sql location : string)
    (params : list ScalarQueryParameter) :
  In (EvStore (Query sql location params)) (trace (_select settings client args)) ->
  sql = Spec.render (project_id settings) (Spec.select_tokens args) /\
  Forall Spec.token_ok (Spec.select_tokens args) /\
  params = (Spec.bound "f" 0 (items_of (filters args)) ++
            [mkParam "limit" "INT64" (VInt (select_limit settings args))])%list.
Proof.
  unfold _select, Spec.select_tokens.
  destruct (_table_ref settings (dataset args) (table args))
    as [ e | tref ] eqn:Htref;
    [ rewrite bind_lift_inl; intros [] | rewrite bind_lift_inr ].
  apply table_ref_shape in Htref as [ -> Htable ].
  assert (Hcols : forall cols,
            (if truthy (columns args)
             then ebind (emap _col_ref (items_of (columns args)))
                        (fun cs => inr (join ", " cs))
             else inr "*") = inr cols ->
            cols = Spec.render (project_id settings)
                     (if truthy (columns args)
                      then Spec.sep_by [Spec.Kw ", "]
                             (map Spec.column_tokens (items_of (columns args)))
                      else [Spec.Kw "*"]) /\
            Forall Spec.token_ok
              (if truthy (columns args)
               then Spec.sep_by [Spec.Kw ", "]
                      (map Spec.column_tokens (items_of (columns args)))
               else [Spec.Kw "*"])).
  { intros cols. destruct (truthy (columns args)).
    - destruct (emap _col_ref _) as [ e | cs ] eqn:Hcs; [ discriminate | ].
      cbn [ebind]. intros [= <-].
      apply (columns_shape settings) in Hcs as [ -> Hoks ]. split.
      + apply join_render_kw.
      + apply sep_by_ok; [ | exact Hoks ].
        constructor; [ cbn; in_list | constructor ].
    - intros [= <-]. split; [ reflexivity | ].
      constructor; [ cbn; in_list | constructor ]. }
  destruct (if truthy (columns args) then _ else _) as [ e | cols ] eqn:Hc;
    [ rewrite bind_lift_inl; intros [] | rewrite bind_lift_inr ].
  destruct (Hcols cols eq_refl) as [ -> Hcolumns ]. clear Hcols Hc.
  cbn zeta.
  destruct (truthy (filters args)) eqn:Hfilters.
  - destruct (predicate_loop "f" 0 (items_of (filters args)))
      as [ e | r ] eqn:Hloop; cbn [ebind];
      [ rewrite bind_lift_inl; intros [] | rewrite bind_lift_inr ].
    apply (predicate_loop_shape settings) in Hloop
      as (Hparts & Hoks & Hparams); [ | in_list ].
    intros Hsent. apply sent_by_emit in Hsent; [ | reflexivity ].
    injection Hsent as -> _ ->. cbn [fst snd]. rewrite Hparts, Hparams.
    split; [ | split; [ | reflexivity ] ].
    + rewrite join_render_kw, !render_app.
      cbn [Spec.render Spec.render_token Spec.table_tokens].
      rewrite ?append_assoc, ?append_nil_r. reflexivity.
    + repeat (apply Forall_app; split); try assumption.
      * constructor; [ cbn; in_list | constructor ].
      * constructor; [ cbn; in_list | constructor ].
      * constructor; [ cbn; in_list | ].
        apply sep_by_ok; [ | exact Hoks ].
        constructor; [ cbn; in_list | constructor ].
      * constructor; [ cbn; in_list | ].
        constructor; [ exact I | constructor ].
  - rewrite bind_lift_inr.
    intros Hsent. apply sent_by_emit in Hsent; [ | reflexivity ].
    injection Hsent as -> _ ->. cbn [fst snd].
    rewrite (falsy_items _ Hfilters).
    split; [ | split; [ | reflexivity ] ].
    + rewrite !render_app.
      cbn [Spec.render Spec.render_token Spec.table_tokens].
      rewrite ?append_assoc, ?append_nil_r. reflexivity.
    + repeat (apply Forall_app; split); try assumption.
      * constructor; [ cbn; in_list | constructor ].
      * constructor; [ cbn; in_list | constructor ].
      * constructor.
      * constructor; [ cbn; in_list | ].
        constructor; [ exact I | constructor ].
Qed.

End SentStatements.

Lemma update_statement {L : Lib} (settings : Settings) (client : Client)
    (args : ExecuteArgs) (sql location : string)
    (params : list ScalarQueryParameter) :
  In (EvStore (Query sql location params)) (trace (_update settings client args)) ->
  sql = Spec.render (project_id settings) (Spec.update_tokens args) /\
  Forall Spec.token_ok (Spec.update_tokens args) /\
  params = (Spec.bound "s" 0 (items_of (set_values args)) ++
            Spec.bound "w" 0 (items_of (filters args)))%list.
Proof.
  unfold _update, Spec.update_tokens.
  destruct (truthy (set_values args)); cbn [negb]; [ | intros [] ].
  destruct (truthy (filters args)); cbn [negb]; [ | intros [] ].
  destruct (_table_ref settings (dataset args) (table args))
    as [ e | tref ] eqn:Htref;
    [ rewrite bind_lift_inl; intros [] | rewrite bind_lift_inr ].
  apply table_ref_shape in Htref as [ -> Htable ].
  destruct (predicate_loop "s" 0 (items_of (set_values args)))
    as [ e | sets ] eqn:Hsets;
    [ rewrite bind_lift_inl; intros [] | rewrite bind_lift_inr ].
  destruct (predicate_loop "w" 0 (items_of (filters args)))
    as [ e | wheres ] eqn:Hwheres;
    [ rewrite bind_lift_inl; intros [] | rewrite bind_lift_inr ].
  apply (predicate_loop_shape settings) in Hsets
    as (Hsparts & Hsoks & Hsparams); [ | in_list ].
  apply (predicate_loop_shape settings) in Hwheres
    as (Hwparts & Hwoks & Hwparams); [ | in_list ].
  cbn zeta. intros Hsent. apply sent_by_emit in Hsent; [ | reflexivity ].
  injection Hsent as -> _ ->.
  rewrite Hsparts, Hwparts, Hsparams, Hwparams.
  split; [ | split; [ | reflexivity ] ].
  - rewrite !join_render_kw, !render_app.
    cbn [Spec.render Spec.render_token Spec.table_tokens].
    rewrite ?append_assoc, ?append_nil_r. reflexivity.
  - repeat (apply Forall_app; split); try assumption;
      try (constructor; [ cbn; in_list | constructor ]).
    + apply sep_by_ok; [ | exact Hsoks ].
      constructor; [ cbn; in_list | constructor ].
    + apply sep_by_ok; [ | exact Hwoks ].
      constructor; [ cbn; in_list | constructor ].
Qed.

Lemma delete_statement {L : Lib} (settings : Settings) (client : Client)
    (args : ExecuteArgs) (sql location : string)
    (params : list ScalarQueryParameter) :
  In (EvStore (Query sql location params)) (trace (_delete settings client args)) ->
  sql = Spec.render (project_id settings) (Spec.delete_tokens args) /\
  Forall Spec.token_ok (Spec.delete_tokens args) /\
  params = Spec.bound "d" 0 (items_of (filters args)).
Proof.
  unfold _delete, Spec.delete_tokens.
  destruct (_table_ref settings (dataset args) (table args))
    as [ e | tref ] eqn:Htref;
    [ rewrite bind_lift_inl; intros [] | rewrite bind_lift_inr ].
  apply table_ref_shape in Htref as [ -> Htable ].
  destruct (truthy (filters args)) eqn:Hfilters.
  - destruct (predicate_loop "d" 0 (items_of (filters args)))
      as [ e | r ] eqn:Hloop; cbn [ebind];
      [ rewrite bind_lift_inl; intros [] | rewrite bind_lift_inr ].
    apply (predicate_loop_shape settings) in Hloop
      as (Hparts & Hoks & Hparams); [ | in_list ].
    cbn zeta. intros Hsent. apply sent_by_emit in Hsent; [ | reflexivity ].
    injection Hsent as -> _ ->. cbn [fst snd]. rewrite Hparts, Hparams.
    split; [ | split; [ | reflexivity ] ].
    + rewrite join_render_kw, !render_app.
      cbn [Spec.render Spec.render_token Spec.table_tokens].
      rewrite ?append_assoc, ?append_nil_r. reflexivity.
    + repeat (apply Forall_app; split); try assumption.
      * constructor; [ cbn; in_list | constructor ].
      * constructor; [ cbn; in_list | ].
        apply sep_by_ok; [ | exact Hoks ].
        constructor; [ cbn; in_list | constructor ].
  - destruct (allow_full_table_delete settings); cbn [negb];
      [ rewrite bind_lift_inr | rewrite bind_lift_inl; intros [] ].
    cbn zeta. intros Hsent. apply sent_by_emit in Hsent; [ | reflexivity ].
    injection Hsent as -> _ ->. cbn [fst snd].
    rewrite (falsy_items _ Hfilters).
    split; [ | split; [ | reflexivity ] ].
    + rewrite !render_app.
      cbn [Spec.render Spec.render_token Spec.table_tokens].
      rewrite ?append_assoc, ?append_nil_r. reflexivity.
    + repeat (apply Forall_app; split); try assumption.
      * constructor; [ cbn; in_list | constructor ].
      * constructor.
Qed.




(** *** Which requests reach the store *)








Section Reach.

Context {L : Lib}.
Variable settings : Settings.
Variable client : Client.

Let location := bigquery_location settings.



End Reach.

(** *** Text that cannot come from keywords, identifiers and placeholders *)









(** * Further properties of the code *)

(** ** Case folding and stripping *)

Lemma lower_char_idem (c : ascii) : lower_char (lower_char c) = lower_char c.
Proof. destruct c as [ [] [] [] [] [] [] [] [] ]; reflexivity. Qed.

Lemma upper_char_idem (c : ascii) : upper_char (upper_char c) = upper_char c.
Proof. destruct c as [ [] [] [] [] [] [] [] [] ]; reflexivity. Qed.

Lemma upper_lower_char (c : ascii) : upper_char (lower_char c) = upper_char c.
Proof. destruct c as [ [] [] [] [] [] [] [] [] ]; reflexivity. Qed.

Lemma is_space_lower_char (c : ascii) : is_space (lower_char c) = is_space c.
Proof. destruct c as [ [] [] [] [] [] [] [] [] ]; reflexivity. Qed.

Lemma map_chars_ext (f g : ascii -> ascii) (s : string) :
  (forall c, f c = g c) -> map_chars f s = map_chars g s.
Proof.
  intros Hfg. induction s as [ | c s IH ]; [ reflexivity | ].
  cbn. now rewrite Hfg, IH.
Qed.

Lemma map_chars_compose (f g : ascii -> ascii) (s : string) :
  map_chars f (map_chars g s) = map_chars (fun c => f (g c)) s.
Proof.
  induction s as [ | c s IH ]; [ reflexivity | ]. cbn. now rewrite IH.
Qed.

Lemma lower_idem (s : string) : lower (lower s) = lower s.
Proof.
  unfold lower. rewrite map_chars_compose.
  apply map_chars_ext, lower_char_idem.
Qed.

Lemma upper_idem (s : string) : upper (upper s) = upper s.
Proof.
  unfold upper. rewrite map_chars_compose.
  apply map_chars_ext, upper_char_idem.
Qed.

Lemma upper_lower (s : string) : upper (lower s) = upper s.
Proof.
  unfold upper, lower. rewrite map_chars_compose.
  apply map_chars_ext, upper_lower_char.
Qed.

Lemma lstrip_lower (s : string) : lstrip (lower s) = lower (lstrip s).
Proof.
  induction s as [ | c s IH ]; [ reflexivity | ].
  cbn. rewrite is_space_lower_char.
  destruct (is_space c); [ exact IH | reflexivity ].
Qed.

Lemma rstrip_lower (s : string) : rstrip (lower s) = lower (rstrip s).
Proof.
  induction s as [ | c s IH ]; [ reflexivity | ].
  cbn. fold (lower s). rewrite IH, is_space_lower_char.
  destruct (rstrip s) as [ | c' r ]; cbn.
  - destruct (is_space c); reflexivity.
  - reflexivity.
Qed.

Lemma strip_lower (s : string) : strip (lower s) = lower (strip s).
Proof. unfold strip. now rewrite lstrip_lower, rstrip_lower. Qed.

Lemma rstrip_cons (c : ascii) (s : string) :
  rstrip (String c s) =
  match rstrip s with
  | EmptyString => if is_space c then EmptyString else String c EmptyString
  | r => String c r
  end.
Proof. reflexivity. Qed.

Lemma rstrip_idem (s : string) : rstrip (rstrip s) = rstrip s.
Proof.
  induction s as [ | c s IH ]; [ reflexivity | ].
  rewrite rstrip_cons. destruct (rstrip s) as [ | c' r ] eqn:Hr.
  - destruct (is_space c) eqn:Hc; [ reflexivity | ].
    rewrite rstrip_cons. cbn. now rewrite Hc.
  - rewrite rstrip_cons, IH. reflexivity.
Qed.

Lemma lstrip_head (s : string) :
  match lstrip s with
  | EmptyString => True
  | String c _ => is_space c = false
  end.
Proof.
  induction s as [ | c s IH ]; [ exact I | ].
  cbn. destruct (is_space c) eqn:Hc; [ exact IH | exact Hc ].
Qed.

Lemma lstrip_rstrip (s : string) :
  match s with
  | EmptyString => True
  | String c _ => is_space c = false
  end ->
  lstrip (rstrip s) = rstrip s.
Proof.
  destruct s as [ | c s ]; [ reflexivity | ]. intros Hc.
  cbn. destruct (rstrip s); rewrite ?Hc; cbn; now rewrite Hc.
Qed.

Lemma strip_idem (s : string) : strip (strip s) = strip s.
Proof.
  unfold strip. rewrite (lstrip_rstrip (lstrip s) (lstrip_head s)).
  apply rstrip_idem.
Qed.

(** The name under which a principal is looked up is already folded and
    stripped. *)
Lemma principal_key_normal (s : string) :
  strip (lower (strip (lower s))) = strip (lower s).
Proof. now rewrite (strip_lower s), lower_idem, <- strip_lower, strip_idem. Qed.

(** ** The policy engine, in general *)

Lemma existsb_eqb_In (x : string) (l : list string) :
  existsb (String.eqb x) l = true <-> In x l.
Proof.
  rewrite existsb_exists. split.
  - intros (y & Hy & Heq). apply String.eqb_eq in Heq. now subst.
  - intros Hx. exists x. split; [ exact Hx | apply String.eqb_refl ].
Qed.

Lemma allowed_when (policy : Policy.PolicyDoc)
    (principal operation dataset table : string) :
  Policy.assert_allowed policy principal operation dataset table = inr tt <->
  In (strip (upper operation))
     (Policy._normalize_ops
        (default [] (Policy.rules_operations
                       (Policy._get_rules_for_principal policy principal)))) /\
  exists tables,
    default (∅ : gmap string (list string))
      (Policy.rules_datasets (Policy._get_rules_for_principal policy principal))
      !! dataset = Some tables /\
    (In "*" tables \/ In table tables).
Proof.
  unfold Policy.assert_allowed.
  destruct (existsb _ (Policy._normalize_ops _)) eqn:Hop; cbn [negb].
  - apply existsb_eqb_In in Hop.
    destruct (_ !! dataset) as [ tables | ] eqn:Hds.
    + destruct (existsb (String.eqb "*") tables) eqn:Hstar.
      * apply existsb_eqb_In in Hstar. split; [ | reflexivity ].
        intros _. split; [ exact Hop | ]. exists tables. split; auto.
      * destruct (existsb (String.eqb table) tables) eqn:Htb; cbn [negb].
        -- apply existsb_eqb_In in Htb. split; [ | reflexivity ].
           intros _. split; [ exact Hop | ]. exists tables. split; auto.
        -- split; [ discriminate | ].
           intros (_ & tables' & [= <-] & [ Hin | Hin ]);
             apply existsb_eqb_In in Hin; congruence.
    + split; [ discriminate | ]. intros (_ & tables & Hsome & _). discriminate.
  - split; [ discriminate | ]. intros (Hin & _).
    apply existsb_eqb_In in Hin. congruence.
Qed.

(** What a request must satisfy to be allowed: its operation, folded to
    upper case and stripped, is among the folded operations of the rule
    set, its dataset is a key of the rule set, and the tables listed for
    that dataset hold the wildcard or the table itself. *)
Theorem assert_allowed_iff (policy : Policy.PolicyDoc)
    (principal operation dataset table : string) :
  Policy.assert_allowed policy principal operation dataset table = inr tt <->
  In (strip (upper operation))
     (Policy._normalize_ops
        (default [] (Policy.rules_operations
                       (Policy._get_rules_for_principal policy principal)))) /\
  exists tables,
    default (∅ : gmap string (list string))
      (Policy.rules_datasets (Policy._get_rules_for_principal policy principal))
      !! dataset = Some tables /\
    (In "*" tables \/ In table tables).
Proof. apply allowed_when. Qed.

(** A wildcard among the tables of a dataset lets every table of that
    dataset through, for an allowed operation. *)
Theorem wildcard_allows_every_table (policy : Policy.PolicyDoc)
    (principal operation dataset : string) (tables : list string)
    (Hop : In (strip (upper operation))
              (Policy._normalize_ops
                 (default [] (Policy.rules_operations
                    (Policy._get_rules_for_principal policy principal)))))
    (Hds : default (∅ : gmap string (list string))
             (Policy.rules_datasets
                (Policy._get_rules_for_principal policy principal))
             !! dataset = Some tables)
    (Hstar : In "*" tables) :
  forall table,
    Policy.assert_allowed policy principal operation dataset table = inr tt.
Proof.
  intros table. apply allowed_when. split; [ exact Hop | ].
  exists tables. split; [ exact Hds | left; exact Hstar ].
Qed.

Lemma wildcard_allows_every_table_witness :
  Policy.assert_allowed Sample.admin_policy "admin" "delete" "sales"
    "any_table_at_all" = inr tt.
Proof.
  apply (wildcard_allows_every_table Sample.admin_policy "admin" "delete"
           "sales" ["*"]).
  - vm_compute. auto.
  - vm_compute. reflexivity.
  - left. reflexivity.
Defined.

(** A principal that is not listed, under a policy without a default rule
    set, is denied every request, with the reason that the operation is not
    allowed. *)
Theorem unlisted_principal_denied (policy : Policy.PolicyDoc)
    (principal operation dataset table : string)
    (Hunlisted : default (∅ : gmap string Policy.Rules)
                   (Policy.doc_principals policy)
                   !! strip (lower principal) = None)
    (Hnodefault : Policy.doc_default policy = None) :
  Policy.assert_allowed policy principal operation dataset table
  = inl (PermissionError
           ("Operation '" +:+ strip (upper operation) +:+
            "' is not allowed for principal '" +:+ principal +:+ "'")).
Proof.
  unfold Policy.assert_allowed, Policy._get_rules_for_principal.
  rewrite Hunlisted, Hnodefault. reflexivity.
Qed.

Lemma unlisted_principal_denied_witness :
  Policy.assert_allowed Sample.analyst_policy "Mallory" "SELECT" "sales" "orders"
  = inl (PermissionError
           "Operation 'SELECT' is not allowed for principal 'Mallory'").
Proof.
  apply (unlisted_principal_denied Sample.analyst_policy "Mallory" "SELECT"
           "sales" "orders"); vm_compute; reflexivity.
Defined.

(** The rule set of a principal does not depend on the case of its name
    nor on white space around it, and neither does the verdict. *)
Theorem principal_lookup_insensitive (policy : Policy.PolicyDoc)
    (principal operation dataset table : string) :
  Policy._get_rules_for_principal policy (strip (lower principal))
  = Policy._get_rules_for_principal policy principal /\
  (Policy.assert_allowed policy (strip (lower principal)) operation dataset table
   = inr tt <->
   Policy.assert_allowed policy principal operation dataset table = inr tt).
Proof.
  assert (Hrules :
    Policy._get_rules_for_principal policy (strip (lower principal))
    = Policy._get_rules_for_principal policy principal).
  { unfold Policy._get_rules_for_principal.
    rewrite principal_key_normal. reflexivity. }
  split; [ exact Hrules | ].
  rewrite !allowed_when, Hrules. reflexivity.
Qed.

(** The operation of a request is matched without regard to case: for
    an operation written in ASCII, the verdict, reason included, is the
    same for the operation in lower case, in upper case, or as given. *)
Theorem operation_match_insensitive (policy : Policy.PolicyDoc)
    (principal operation dataset table : string)
    (Hascii : Forms.is_ascii operation = true) :
  Policy.assert_allowed policy principal (lower operation) dataset table
  = Policy.assert_allowed policy principal operation dataset table /\
  Policy.assert_allowed policy principal (upper operation) dataset table
  = Policy.assert_allowed policy principal operation dataset table.
Proof.
  unfold Policy.assert_allowed. rewrite upper_lower, upper_idem.
  split; reflexivity.
Qed.

Lemma operation_match_insensitive_witness :
  Forms.is_ascii "Select" = true /\
  Policy.assert_allowed Sample.analyst_policy "analyst" (lower "Select")
    "sales" "orders"
  = Policy.assert_allowed Sample.analyst_policy "analyst" "Select"
      "sales" "orders" /\
  Policy.assert_allowed Sample.analyst_policy "analyst" (upper "Select")
    "sales" "orders"
  = Policy.assert_allowed Sample.analyst_policy "analyst" "Select"
      "sales" "orders".
Proof.
  split; [ reflexivity | ].
  apply (operation_match_insensitive Sample.analyst_policy "analyst" "Select"
           "sales" "orders").
  reflexivity.
Defined.

(** The operations of a rule set are folded to upper case and stripped;
    entries that are not strings are ignored. *)
Theorem normalize_ops_members (ops : list Value) (x : string) :
  In x (Policy._normalize_ops ops) <->
  exists s, In (VStr s) ops /\ x = strip (upper s).
Proof.
  induction ops as [ | op ops IH ].
  - split; [ intros [] | intros (s & [] & _) ].
  - destruct op; cbn [Policy._normalize_ops isinstance];
      try (rewrite IH; split;
           [ intros (s & Hs & Hx); exists s; split; [ right; exact Hs | exact Hx ]
           | intros (s & [ Hs | Hs ] & Hx);
             [ discriminate | exists s; split; assumption ] ]).
    cbn [In]. rewrite IH. split.
    + intros [ <- | (s' & Hs & Hx) ].
      * exists s. split; [ left; reflexivity | reflexivity ].
      * exists s'. split; [ right; exact Hs | exact Hx ].
    + intros (s' & [ [= <-] | Hs ] & Hx).
      * left. now symmetry.
      * right. exists s'. split; assumption.
Qed.

(** ** Authentication *)

(** Every principal issued is already in the form the policy engine
    looks up: lower case, no surrounding white space. The engine's lookup
    key for it is the principal itself. *)
Theorem issued_principal_is_lookup_key (settings : Auth.AuthSettings)
    (verify : string -> option string -> string + Auth.TokenInfo)
    (creds : option Auth.HTTPAuthorizationCredentials)
    (x_principal : option string) (p : string)
    (Hissued : Auth._get_principal settings verify creds x_principal = inr p) :
  strip (lower p) = p /\
  forall policy,
    Policy._get_rules_for_principal policy p =
    match default (∅ : gmap string Policy.Rules) (Policy.doc_principals policy)
            !! p with
    | Some rules => rules
    | None => default Policy.empty_rules (Policy.doc_default policy)
    end.
Proof.
  assert (Hfold : forall s, strip (lower (lower (strip s))) = lower (strip s)).
  { intros s. now rewrite lower_idem, strip_lower, strip_idem. }
  assert (Hp : strip (lower p) = p).
  { revert Hissued. unfold Auth._get_principal.
    destruct (Auth.auth_mode settings).
    - destruct creds as [ c | ]; [ | discriminate ].
      destruct (negb _); [ discriminate | ].
      destruct (strip (Auth.credentials c)); [ discriminate | ].
      destruct (verify _ _) as [ e | info ]; [ discriminate | ].
      destruct (lower (strip _)) eqn:Hprincipal; [ discriminate | ].
      intros [= <-]. rewrite <- Hprincipal. apply Hfold.
    - destruct x_principal as [ [ | c r ] | ]; try discriminate.
      intros [= <-]. apply Hfold.
    - intros [= <-]. reflexivity. }
  split; [ exact Hp | ].
  intros policy. unfold Policy._get_rules_for_principal. now rewrite Hp.
Qed.

Lemma issued_principal_is_lookup_key_witness :
  strip (lower "alice@example.com") = "alice@example.com".
Proof.
  apply (issued_principal_is_lookup_key
           (Auth.mkAuthSettings Auth.header None) (fun _ _ => inl "unused")
           None (Some "  Alice@Example.com ")).
  reflexivity.
Defined.

(** Authentication fails with status 401 and nothing else. In id_token
    mode a principal is issued only for bearer credentials whose stripped
    token the identity provider verified against the configured audience,
    and it is never empty. *)
Theorem authentication_outcomes (settings : Auth.AuthSettings)
    (verify : string -> option string -> string + Auth.TokenInfo)
    (creds : option Auth.HTTPAuthorizationCredentials)
    (x_principal : option string) :
  match Auth._get_principal settings verify creds x_principal with
  | inl e => Auth.status_code e = 401
  | inr p =>
      match Auth.auth_mode settings with
      | Auth.none => p = "anonymous"
      | Auth.header =>
          exists h, x_principal = Some h /\ h <> "" /\ p = lower (strip h)
      | Auth.id_token =>
          p <> "" /\
          exists c info,
            creds = Some c /\ lower (Auth.scheme c) = "bearer" /\
            strip (Auth.credentials c) <> "" /\
            verify (strip (Auth.credentials c))
                   (match Auth.mcp_audience settings with
                    | Some (String a r) => Some (String a r)
                    | _ => None
                    end) = inr info /\
            p = lower (strip (Auth.str_or (Auth.email info)
                                (Auth.str_or (Auth.sub info) "")))
      end
  end.
Proof.
  unfold Auth._get_principal.
  destruct (Auth.auth_mode settings).
  - destruct creds as [ c | ]; [ | reflexivity ].
    destruct (String.eqb (lower (Auth.scheme c)) "bearer") eqn:Hscheme;
      cbn [negb]; [ | reflexivity ].
    apply String.eqb_eq in Hscheme.
    destruct (strip (Auth.credentials c)) as [ | t ts ] eqn:Htoken;
      [ reflexivity | ].
    destruct (verify _ _) as [ e | info ] eqn:Hverify; [ reflexivity | ].
    destruct (lower (strip _)) as [ | q qs ] eqn:Hprincipal; [ reflexivity | ].
    split; [ discriminate | ].
    exists c, info. rewrite Htoken.
    split; [ reflexivity | ]. split; [ exact Hscheme | ].
    split; [ discriminate | ]. split; [ exact Hverify | ].
    symmetry. exact Hprincipal.
  - destruct x_principal as [ [ | c r ] | ]; try reflexivity.
    exists (String c r). split; [ reflexivity | ].
    split; [ discriminate | reflexivity ].
  - reflexivity.
Qed.

(** ** The translator: limits, normal forms, parameter names *)

(** Whatever limit is requested, the limit bound never exceeds the
    configured maximum, and it is at least 1 when the maximum is. *)
Theorem select_limit_bounds (settings : Settings) (args : ExecuteArgs) :
  select_limit settings args <= max_select_limit settings /\
  (1 <= max_select_limit settings -> 1 <= select_limit settings args).
Proof. unfold select_limit. split; intros; lia. Qed.

Lemma select_limit_bounds_witness :
  1 <= select_limit Sample.settings
         (Sample.args SELECT "sales" "orders" None (-7) None).
Proof.
  apply (select_limit_bounds Sample.settings
           (Sample.args SELECT "sales" "orders" None (-7) None)).
  discriminate.
Defined.

Lemma normalized_plain {L : Lib} (v : Value) :
  Forms.plain (_normalize_value v) = true.
Proof.
  induction v using Value_nested_ind; try reflexivity.
  - cbn. rewrite forallb_forall. intros y Hy.
    apply in_map_iff in Hy as (x & <- & Hx).
    rewrite Forall_forall in H. apply H. now apply list_elem_of_In.
  - cbn. rewrite forallb_forall. intros y Hy.
    apply in_map_iff in Hy as (x & <- & Hx).
    rewrite Forall_forall in H. cbn. apply H. now apply list_elem_of_In.
Qed.

(** After normalization no decimal, datetime, date or time is left at any
    position reached through lists and mappings. *)
Theorem normalize_leaves_plain {L : Lib} (v : Value) :
  Forms.plain (_normalize_value v) = true.
Proof. apply normalized_plain. Qed.

(** Decimal rendering of an index is injective. *)
Lemma str_nat_inj (i j : nat) : str_nat i = str_nat j -> i = j.
Proof.
  unfold str_nat. intros Heq.
  assert (Huint : Some (Nat.to_uint i) = Some (Nat.to_uint j)).
  { rewrite <- !NilEmpty.usu. now rewrite Heq. }
  injection Huint as Huint.
  rewrite <- (DecimalNat.Unsigned.of_to i), <- (DecimalNat.Unsigned.of_to j).
  now rewrite Huint.
Qed.

Lemma bound_names (c : ascii) (items : list (string * Value)) :
  forall i name,
    In name (Forms.names (Spec.bound (String c "") i items)) ->
    exists j, (i <= j)%nat /\ name = String c (str_nat j).
Proof.
  induction items as [ | [k v] items IH ]; intros i name; [ intros [] | ].
  cbn. intros [ <- | Hin ].
  - exists i. split; [ lia | reflexivity ].
  - destruct (IH (S i) name Hin) as (j & Hj & ->).
    exists j. split; [ lia | reflexivity ].
Qed.

Lemma bound_names_nodup (c : ascii) (items : list (string * Value)) :
  forall i, List.NoDup (Forms.names (Spec.bound (String c "") i items)).
Proof.
  induction items as [ | [k v] items IH ]; intros i; [ constructor | ].
  cbn. constructor; [ | apply IH ].
  intros Hin. apply bound_names in Hin as (j & Hj & Heq).
  injection Heq as Heq. apply str_nat_inj in Heq. lia.
Qed.

(** The parameters of every statement sent have pairwise distinct names:
    the filter, set and delete-filter parameters are numbered within their
    own prefix, the prefixes differ, and none of them is "limit". *)
Theorem parameter_names_distinct {L : Lib}
    (settings : Settings) (client : Client) (args : ExecuteArgs)
    (sql location : string) (params : list ScalarQueryParameter)
    (Hsent : In (EvStore (Query sql location params))
                (trace (execute settings client args))) :
  List.NoDup (Forms.names params).
Proof.
  unfold execute in Hsent. destruct (operation args).
  - apply select_statement in Hsent as (_ & _ & ->).
    unfold Forms.names. rewrite map_app. apply NoDup_ListNoDup, NoDup_app.
    split; [ apply NoDup_ListNoDup, (bound_names_nodup "f") | ].
    split; [ | apply NoDup_ListNoDup; repeat constructor; intros [] ].
    intros name Hname Hlimit.
    apply list_elem_of_In, (bound_names "f") in Hname as (j & _ & ->).
    apply list_elem_of_In in Hlimit as [ Heq | [] ]. discriminate.
  - exfalso. revert Hsent. unfold _create_table.
    destruct (negb _); [ intros [] | ].
    destruct (_ensure_ident (dataset args) "dataset"); cbn; [ intros [] | ].
    destruct (_ensure_ident (table args) "table"); cbn; [ intros [] | ].
    destruct (emap _ _); cbn; [ intros [] | ].
    destruct (create_table client _ _ _); cbn; intros [ Hev | [] ]; discriminate.
  - exfalso. revert Hsent. unfold _insert.
    destruct (negb _); [ intros [] | ].
    destruct (_ensure_ident (dataset args) "dataset"); cbn; [ intros [] | ].
    destruct (_ensure_ident (table args) "table"); cbn; [ intros [] | ].
    destruct (insert_rows_json client _ _) as [ e | [ | err errs ] ]; cbn;
      intros [ Hev | [] ]; discriminate.
  - apply update_statement in Hsent as (_ & _ & ->).
    unfold Forms.names. rewrite map_app. apply NoDup_ListNoDup, NoDup_app.
    split; [ apply NoDup_ListNoDup, (bound_names_nodup "s") | ].
    split; [ | apply NoDup_ListNoDup, (bound_names_nodup "w") ].
    intros name Hs Hw.
    apply list_elem_of_In, (bound_names "s") in Hs as (j & _ & ->).
    apply list_elem_of_In, (bound_names "w") in Hw as (j' & _ & Heq).
    discriminate.
  - apply delete_statement in Hsent as (_ & _ & ->).
    apply (bound_names_nodup "d").
Qed.

Lemma parameter_names_distinct_witness :
  List.NoDup ["s0"; "s1"; "w0"].
Proof.
  apply (parameter_names_distinct (L := Sample.lib) Sample.settings
           Sample.client
           (Sample.args UPDATE "sales" "orders" (Some [("id", VInt 7)]) 100
              (Some [("status", VStr "done"); ("paid", VBool true)]))
           (nl +:+ "        UPDATE `proj.sales.orders`" +:+
            nl +:+ "        SET `status` = @s0, `paid` = @s1" +:+
            nl +:+ "        WHERE `id` = @w0" +:+ nl +:+ "        ")
           "EU"
           [mkParam "s0" "STRING" (VStr "done"); mkParam "s1" "BOOL" (VBool true);
            mkParam "w0" "INT64" (VInt 7)]).
  left. reflexivity.
Defined.

(** ** The translator: what reaches the store *)

Ltac run_step :=
  match goal with
  | |- context [Store.bind (lift ?x) _] =>
      destruct x eqn:?; [ rewrite bind_lift_inl | rewrite bind_lift_inr ]
  | |- context [Store.bind (emit _ ?r) _] =>
      rewrite bind_emit; destruct r eqn:?
  end; cbn beta zeta.

(** A request makes at most one call to the store, and the translator
    never consults the policy engine. *)
Theorem one_store_call_at_most {L : Lib}
    (settings : Settings) (client : Client) (args : ExecuteArgs) :
  (length (trace (execute settings client args)) <= 1)%nat /\
  forallb is_store_event (trace (execute settings client args)) = true.
Proof.
  unfold execute. destruct (operation args).
  - unfold _select. repeat run_step; cbn; split; (lia || reflexivity).
  - unfold _create_table. destruct (negb _); [ cbn; split; (lia || reflexivity) | ].
    repeat run_step; cbn; split; (lia || reflexivity).
  - unfold _insert. destruct (negb _); [ cbn; split; (lia || reflexivity) | ].
    repeat run_step; try (cbn; split; (lia || reflexivity)).
    destruct l; cbn; split; (lia || reflexivity).
  - unfold _update.
    destruct (negb _); [ cbn; split; (lia || reflexivity) | ].
    destruct (negb _); [ cbn; split; (lia || reflexivity) | ].
    repeat run_step; cbn; split; (lia || reflexivity).
  - unfold _delete. repeat run_step; cbn; split; (lia || reflexivity).
Qed.

Lemma ensure_ident_invalid (name label : string) :
  IDENT_RE_match name = false ->
  _ensure_ident name label
  = inl (ValueError ("Invalid " +:+ label +:+ ": " +:+ name)).
Proof. unfold _ensure_ident. now intros ->. Qed.

Lemma table_ref_invalid (settings : Settings) (dataset table : string) :
  IDENT_RE_match dataset = false \/ IDENT_RE_match table = false ->
  exists msg, _table_ref settings dataset table = inl (ValueError msg).
Proof.
  unfold _table_ref, _ensure_ident. intros [ Hds | Htb ].
  - rewrite Hds. cbn. eauto.
  - rewrite Htb. destruct (IDENT_RE_match dataset); cbn; eauto.
Qed.

(** Whatever the operation, a request whose dataset or table does not
    pass identifier validation fails with a ValueError and calls nothing. *)
Theorem invalid_names_call_nothing {L : Lib}
    (settings : Settings) (client : Client) (args : ExecuteArgs)
    (Hbad : IDENT_RE_match (dataset args) = false \/
            IDENT_RE_match (table args) = false) :
  trace (execute settings client args) = [] /\
  exists msg, outcome (execute settings client args) = inl (ValueError msg).
Proof.
  pose proof (table_ref_invalid settings _ _ Hbad) as [ msg Href ].
  unfold execute. destruct (operation args).
  - unfold _select. rewrite Href, bind_lift_inl. cbn. eauto.
  - unfold _create_table. destruct (negb _); [ cbn; eauto | ].
    unfold _ensure_ident. destruct Hbad as [ Hds | Htb ].
    + rewrite Hds. cbn. eauto.
    + rewrite Htb. destruct (IDENT_RE_match (dataset args)); cbn; eauto.
  - unfold _insert. destruct (negb _); [ cbn; eauto | ].
    unfold _ensure_ident. destruct Hbad as [ Hds | Htb ].
    + rewrite Hds. cbn. eauto.
    + rewrite Htb. destruct (IDENT_RE_match (dataset args)); cbn; eauto.
  - unfold _update.
    destruct (negb _); [ cbn; eauto | ].
    destruct (negb _); [ cbn; eauto | ].
    rewrite Href, bind_lift_inl. cbn. eauto.
  - unfold _delete. rewrite Href, bind_lift_inl. cbn. eauto.
Qed.

Lemma invalid_names_call_nothing_witness :
  trace (execute (L := Sample.lib) Sample.settings Sample.client
           (Sample.args SELECT "sales" "orders; DROP TABLE x" None 100 None))
  = [].
Proof.
  apply (invalid_names_call_nothing (L := Sample.lib) Sample.settings
           Sample.client
           (Sample.args SELECT "sales" "orders; DROP TABLE x" None 100 None)).
  right. reflexivity.
Defined.

(** No unfiltered mutation reaches the store: every UPDATE sent, and
    every DELETE sent while full-table delete is disabled, comes from a
    request with at least one filter, and the value of its first filter is
    bound as parameter w0, respectively d0. *)
Theorem mutations_sent_are_filtered {L : Lib}
    (settings : Settings) (client : Client) (args : ExecuteArgs)
    (sql location : string) (params : list ScalarQueryParameter)
    (Hop : operation args = UPDATE \/
           (operation args = DELETE /\ allow_full_table_delete settings = false))
    (Hsent : In (EvStore (Query sql location params))
                (trace (execute settings client args))) :
  exists k v rest,
    filters args = Some ((k, v) :: rest) /\
    In (mkParam (match operation args with UPDATE => "w0" | _ => "d0" end)
                (_param_type v) v) params.
Proof.
  unfold execute in Hsent. destruct Hop as [ Hop | [ Hop Hflag ] ];
    rewrite Hop in *.
  - pose proof Hsent as Hshape.
    apply update_statement in Hshape as (_ & _ & ->).
    revert Hsent. unfold _update.
    destruct (truthy (set_values args)); cbn [negb]; [ | intros [] ].
    destruct (filters args) as [ [ | [k v] rest ] | ]; cbn [truthy negb];
      try (intros []).
    intros _. exists k, v, rest. split; [ reflexivity | ].
    apply in_or_app. right. left. reflexivity.
  - pose proof Hsent as Hshape.
    apply delete_statement in Hshape as (_ & _ & ->).
    revert Hsent. unfold _delete.
    destruct (_table_ref _ _ _);
      [ rewrite bind_lift_inl; intros [] | rewrite bind_lift_inr ].
    destruct (filters args) as [ [ | [k v] rest ] | ]; cbn [truthy negb];
      rewrite ?Hflag; cbn [negb]; try (rewrite bind_lift_inl; intros []).
    intros _. exists k, v, rest. split; [ reflexivity | ].
    left. reflexivity.
Qed.

Lemma mutations_sent_are_filtered_witness :
  exists k v rest,
    Some [("id", VInt 7)] = Some ((k, v) :: rest) /\
    In (mkParam "d0" (_param_type v) v) [mkParam "d0" "INT64" (VInt 7)].
Proof.
  apply (mutations_sent_are_filtered (L := Sample.lib) Sample.settings
           Sample.client
           (Sample.args DELETE "sales" "orders" (Some [("id", VInt 7)]) 100 None)
           "DELETE FROM `proj.sales.orders` WHERE `id` = @d0" "EU"
           [mkParam "d0" "INT64" (VInt 7)]).
  - right. split; reflexivity.
  - left. reflexivity.
Defined.

(** ** CREATE_TABLE and INSERT *)

Lemma schema_field_ok (f : TableField) (sf : SchemaField) :
  schema_field f = inr sf ->
  sf = mkSchemaField (tf_name f) (tf_type f) (tf_mode f) /\
  In (tf_type f) ALLOWED_TYPES /\ IDENT_RE_match (tf_name f) = true.
Proof.
  unfold schema_field.
  destruct (existsb _ ALLOWED_TYPES) eqn:Htype; cbn [negb]; [ | discriminate ].
  apply existsb_eqb_In in Htype.
  destruct (_ensure_ident (tf_name f) "field name") as [ e | n ] eqn:Hname;
    [ discriminate | ].
  apply ensure_ident_inr in Hname as [ _ Hname ].
  cbn [ebind]. intros [= <-]. repeat split; assumption.
Qed.

Lemma schema_fields_ok (fs : list TableField) (sfs : list SchemaField) :
  emap schema_field fs = inr sfs ->
  sfs = map (fun f => mkSchemaField (tf_name f) (tf_type f) (tf_mode f)) fs /\
  Forall (fun f => In (tf_type f) ALLOWED_TYPES /\
                   IDENT_RE_match (tf_name f) = true) fs.
Proof.
  revert sfs. induction fs as [ | f fs IH ]; intros sfs.
  - intros [= <-]. split; constructor.
  - cbn [emap].
    destruct (schema_field f) as [ e | sf ] eqn:Hf; [ discriminate | ].
    destruct (emap schema_field fs) as [ e | rest ] eqn:Hfs; [ discriminate | ].
    cbn [ebind]. intros [= <-].
    apply schema_field_ok in Hf as (-> & Htype & Hname).
    destruct (IH rest eq_refl) as [ -> Hall ].
    split; [ reflexivity | constructor; [ split; assumption | exact Hall ] ].
Qed.

(** Every call a CREATE_TABLE request makes is one create_table call for
    project.dataset.table, with a dataset and table that passed
    validation, a non-empty field list given in the request's order, every
    field carrying an allowed type and a validated name, and exists_ok set
    to the request's if_not_exists. *)
Theorem create_table_call_validated {L : Lib}
    (settings : Settings) (client : Client) (args : ExecuteArgs)
    (call : StoreCall)
    (Hop : operation args = CREATE_TABLE)
    (Hsent : In (EvStore call) (trace (execute settings client args))) :
  call = CreateTable
           (project_id settings +:+ "." +:+ dataset args +:+ "." +:+ table args)
           (map (fun f => mkSchemaField (tf_name f) (tf_type f) (tf_mode f))
                (items_of (schema args)))
           (if_not_exists args) /\
  items_of (schema args) <> [] /\
  IDENT_RE_match (dataset args) = true /\
  IDENT_RE_match (table args) = true /\
  Forall (fun f => In (tf_type f) ALLOWED_TYPES /\
                   IDENT_RE_match (tf_name f) = true)
         (items_of (schema args)).
Proof.
  revert Hsent. unfold execute. rewrite Hop. unfold _create_table.
  destruct (schema args) as [ [ | f fs ] | ] eqn:Hschema; cbn [truthy negb];
    try (intros []).
  destruct (_ensure_ident (dataset args) "dataset") as [ e | ds ] eqn:Hds;
    [ rewrite bind_lift_inl; intros [] | rewrite bind_lift_inr ].
  destruct (_ensure_ident (table args) "table") as [ e | tb ] eqn:Htb;
    [ rewrite bind_lift_inl; intros [] | rewrite bind_lift_inr ].
  destruct (emap schema_field (items_of (Some (f :: fs)))) as [ e | sfs ] eqn:Hfs;
    [ rewrite bind_lift_inl; intros [] | rewrite bind_lift_inr ].
  apply ensure_ident_inr in Hds as [ _ Hds ].
  apply ensure_ident_inr in Htb as [ _ Htb ].
  apply schema_fields_ok in Hfs as [ -> Hall ].
  cbn zeta. intros Hsent. apply sent_by_emit in Hsent; [ | reflexivity ].
  injection Hsent as ->.
  split; [ reflexivity | ]. split; [ discriminate | ].
  split; [ exact Hds | ]. split; [ exact Htb | exact Hall ].
Qed.

Lemma create_table_call_validated_witness :
  In "INT64" ALLOWED_TYPES.
Proof.
  pose proof (create_table_call_validated (L := Sample.lib) Sample.settings
                Sample.client
                (mkExecuteArgs CREATE_TABLE "sales" "orders" None None 100
                   (Some [mkTableField "id" "INT64" "REQUIRED"]) true None None)
                (CreateTable "proj.sales.orders"
                   [mkSchemaField "id" "INT64" "REQUIRED"] true)
                eq_refl (or_introl eq_refl)) as (_ & _ & _ & _ & Hall).
  apply Forall_inv in Hall. exact (proj1 Hall).
Defined.

(** INSERT: without rows the request fails with a ValueError and calls
    nothing; every call made is one insert_rows_json call for
    project.dataset.table (both validated) carrying the rows of the request
    unchanged; and the request succeeds only if the store reported no row
    error, in which case inserted_rows is the number of rows given. *)
Theorem insert_contract {L : Lib}
    (settings : Settings) (client : Client) (args : ExecuteArgs)
    (Hop : operation args = INSERT) :
  let r := execute settings client args in
  let table_id :=
    project_id settings +:+ "." +:+ dataset args +:+ "." +:+ table args in
  (truthy (rows args) = false ->
   r = ([], inl (ValueError "rows is required for INSERT"))) /\
  (forall call, In (EvStore call) (trace r) ->
     call = InsertRowsJson table_id (items_of (rows args)) /\
     truthy (rows args) = true /\
     IDENT_RE_match (dataset args) = true /\
     IDENT_RE_match (table args) = true) /\
  (forall v, outcome r = inr v ->
     insert_rows_json client table_id (items_of (rows args)) = inr [] /\
     v = VDict [("operation", VStr "INSERT");
                ("inserted_rows",
                 VInt (Z.of_nat (length (items_of (rows args)))))]).
Proof.
  intros r table_id. subst r table_id.
  unfold execute. rewrite Hop. unfold _insert.
  destruct (truthy (rows args)) eqn:Hrows; cbn [negb].
  2:{ split; [ reflexivity | ].
      split; [ intros call [] | intros v; discriminate ]. }
  split; [ discriminate | ].
  destruct (_ensure_ident (dataset args) "dataset") as [ e | ds ] eqn:Hds;
    [ rewrite bind_lift_inl | rewrite bind_lift_inr ].
  { split; [ intros call [] | intros v; discriminate ]. }
  destruct (_ensure_ident (table args) "table") as [ e | tb ] eqn:Htb;
    [ rewrite bind_lift_inl | rewrite bind_lift_inr ].
  { split; [ intros call [] | intros v; discriminate ]. }
  apply ensure_ident_inr in Hds as [ _ Hds ].
  apply ensure_ident_inr in Htb as [ _ Htb ].
  cbn zeta. rewrite bind_emit.
  destruct (insert_rows_json client _ _) as [ e | [ | err errs ] ]; cbn.
  - split; [ | intros v; discriminate ].
    intros call [ [= <-] | [] ]. repeat split; assumption.
  - split.
    + intros call [ [= <-] | [] ]. repeat split; assumption.
    + intros v [= <-]. split; reflexivity.
  - split; [ | intros v; discriminate ].
    intros call [ [= <-] | [] ]. repeat split; assumption.
Qed.

Lemma insert_contract_witness :
  execute (L := Sample.lib) Sample.settings Sample.client
    (mkExecuteArgs INSERT "sales" "orders" None None 100 None true None None)
  = ([], inl (ValueError "rows is required for INSERT")).
Proof.
  apply (insert_contract (L := Sample.lib) Sample.settings Sample.client
           (mkExecuteArgs INSERT "sales" "orders" None None 100 None true
              None None) eq_refl).
  reflexivity.
Defined.

(** ** The dispatcher and the two surfaces *)

(** The error code of an answer tells what happened. -32601: the method
    is unknown, or the tool of a tools/call is not "bigquery.execute" (or
    is missing), and nothing was called. -32602: the arguments failed
    validation, nothing was called, and the message carries the validation
    detail. -32000: the validated arguments were executed and the execution
    raised; the message is the text of the exception. No error: tools/list,
    or an execution that succeeded, whose result is passed on unchanged. *)
Theorem error_code_tells_the_cause {L : Lib}
    (model_validate : Value -> string + ExecuteArgs)
    (req : JsonRpcRequest) (execute_callable : ExecuteArgs -> M Value) :
  let answer :=
    McpProtocol.handle_mcp_request model_validate req execute_callable in
  let params := items_of (req_params req) in
  let name := default VNone (dict_get params "name") in
  let raw_args := default (VDict []) (dict_get params "arguments") in
  match error_code (snd answer) with
  | Some code =>
      is_error (snd answer) = true /\
      ((code = VInt (-32601) /\ fst answer = [] /\
        (req_method req <> "tools/list" /\
         (req_method req <> "tools/call" \/ name <> VStr "bigquery.execute")))
       \/
       (code = VInt (-32602) /\ fst answer = [] /\
        req_method req = "tools/call" /\
        exists e, model_validate raw_args = inl e /\
                  error_message (snd answer)
                  = Some (VStr ("Invalid params: " +:+ e)))
       \/
       (code = VInt (-32000) /\
        req_method req = "tools/call" /\
        exists parsed e,
          model_validate raw_args = inr parsed /\
          execute_callable parsed = (fst answer, inl e) /\
          error_message (snd answer) = Some (VStr (exn_str e))))
  | None =>
      is_error (snd answer) = false /\
      ((req_method req = "tools/list" /\ fst answer = []) \/
       (req_method req = "tools/call" /\
        exists parsed result,
          model_validate raw_args = inr parsed /\
          execute_callable parsed = (fst answer, inr result) /\
          envelope_result (snd answer) = Some result))
  end.
Proof.
  intros answer params name raw_args. subst answer.
  unfold McpProtocol.handle_mcp_request.
  fold params. fold name. fold raw_args.
  destruct (String.eqb (req_method req) "tools/list") eqn:Hlist.
  { apply String.eqb_eq in Hlist. cbn. split; [ reflexivity | ].
    left. split; [ exact Hlist | reflexivity ]. }
  apply String.eqb_neq in Hlist.
  destruct (String.eqb (req_method req) "tools/call") eqn:Hcall.
  2:{ apply String.eqb_neq in Hcall. cbn. split; [ reflexivity | ].
      left. split; [ reflexivity | ]. split; [ reflexivity | ].
      split; [ exact Hlist | left; exact Hcall ]. }
  apply String.eqb_eq in Hcall.
  destruct (negb _) eqn:Hname.
  { cbn. split; [ reflexivity | ].
    left. split; [ reflexivity | ]. split; [ reflexivity | ].
    split; [ exact Hlist | right ].
    intros Heq. rewrite Heq in Hname. discriminate. }
  destruct (model_validate raw_args) as [ e | parsed ] eqn:Hvalid.
  { cbn. split; [ reflexivity | ].
    right. left. split; [ reflexivity | ]. split; [ reflexivity | ].
    split; [ exact Hcall | ]. exists e. split; reflexivity. }
  destruct (execute_callable parsed) as [ t [ e | result ] ] eqn:Hexec; cbn.
  - split; [ reflexivity | ].
    right. right. split; [ reflexivity | ]. split; [ exact Hcall | ].
    exists parsed, e.
    split; [ first [ reflexivity | assumption ] | ].
    split; first [ reflexivity | assumption ].
  - split; [ reflexivity | ].
    right. split; [ exact Hcall | ].
    exists parsed, result.
    split; [ first [ reflexivity | assumption ] | ].
    split; first [ reflexivity | assumption ].
Qed.

(** Authorization comes first on the plain surface: the first thing a
    request does is ask the policy engine. When the engine denies, nothing
    else is called, the request fails with that PermissionError and is
    answered 403; when it allows, the rest is the translator's calls and
    the translator's result, wrapped with the principal. *)
Theorem authorization_comes_first {L : Lib}
    (settings : Settings) (client : Client) (policy : Policy.PolicyDoc)
    (args : ExecuteArgs) (principal : string) :
  let r := Main.execute_rest settings client policy args principal in
  let verdict :=
    Policy.assert_allowed policy principal (Operation_value (operation args))
      (dataset args) (table args) in
  let asked :=
    EvPolicy principal (Operation_value (operation args))
      (dataset args) (table args) in
  match verdict with
  | inl e =>
      r = ([asked], inl e) /\ fst (Main.rest_response r) = 403
  | inr _ =>
      trace r = asked :: trace (execute settings client args) /\
      outcome r =
      match outcome (execute settings client args) with
      | inl e => inl e
      | inr result =>
          inr (VDict [("principal", VStr principal); ("result", result)])
      end
  end.
Proof.
  intros r verdict asked. subst r verdict asked.
  unfold Main.execute_rest, Main.authorize.
  destruct (Policy.assert_allowed policy principal _ _ _) as [ e | [] ] eqn:Hv.
  - split; [ reflexivity | ].
    apply assert_allowed_denial in Hv as [ msg -> ]. reflexivity.
  - rewrite bind_emit. cbn [trace outcome fst snd].
    destruct (execute settings client args) as [ t [ e | result ] ];
      cbn; split; try reflexivity; now rewrite app_nil_r.
Qed.



(** ** Identifier validation, exactly *)

Lemma ident_tail_newline (rest : string) :
  forall n, Spec.all_chars ident_char rest = true ->
            (String.length rest <= n)%nat ->
            ident_tail n (rest +:+ nl) = true.
Proof.
  induction rest as [ | c rest IH ]; intros n Hall Hlen.
  - destruct n; reflexivity.
  - cbn in Hall, Hlen. apply andb_true_iff in Hall as [Hc Hrest].
    destruct n as [ | n ]; [ lia | ].
    change (String c rest +:+ nl) with (String c (rest +:+ nl)).
    cbn [ident_tail]. rewrite Hc, (IH n Hrest) by lia.
    apply orb_true_r.
Qed.

(** Validation accepts a name, and returns it unchanged, exactly when it
    is an identifier (a letter or underscore followed by at most 127
    letters, digits or underscores) or such an identifier followed by one
    newline; every other name raises ValueError "Invalid <label>: <name>". *)
Theorem ensure_ident_accepts_exactly (name label : string) :
  match _ensure_ident name label with
  | inr out =>
      out = name /\
      exists body, Spec.identifier body = true /\
                   (name = body \/ name = body +:+ nl)
  | inl e =>
      e = ValueError ("Invalid " +:+ label +:+ ": " +:+ name) /\
      forall body, Spec.identifier body = true ->
                   name <> body /\ name <> body +:+ nl
  end.
Proof.
  destruct (_ensure_ident name label) as [ e | out ] eqn:Hensure.
  - assert (Hno : IDENT_RE_match name = false).
    { revert Hensure. unfold _ensure_ident.
      destruct (IDENT_RE_match name); [ discriminate | reflexivity ]. }
    split.
    + rewrite (ensure_ident_invalid name label Hno) in Hensure. congruence.
    + intros body Hbody. split; intros ->.
      * rewrite (identifier_accepted body label Hbody) in Hensure. discriminate.
      * revert Hno. unfold Spec.identifier in Hbody.
        destruct body as [ | c rest ]; [ discriminate | ].
        apply andb_true_iff in Hbody as [Hbody Hlen].
        apply andb_true_iff in Hbody as [Hc Hall].
        apply Nat.leb_le in Hlen. cbn in Hlen.
        change (String c rest +:+ nl) with (String c (rest +:+ nl)).
        unfold IDENT_RE_match.
        rewrite Hc, (ident_tail_newline rest 127 Hall) by lia. discriminate.
  - apply accepted_shape in Hensure as (-> & body & Hshape & Hbody).
    split; [ reflexivity | ]. exists body. split; assumption.
Qed.

(** ** The validators of TableField *)

(** The mode of a field is validated without regard to case: the result
    is the upper-cased mode, one of NULLABLE, REQUIRED, REPEATED, and
    validating it again changes nothing; any other mode is a ValueError. *)
Theorem upper_mode_contract (v : string) :
  match TableFieldValidators.upper_mode v with
  | inr m =>
      m = upper v /\ In m TableFieldValidators.MODES /\
      TableFieldValidators.upper_mode m = inr m
  | inl e =>
      e = ValueError "mode must be one of NULLABLE, REQUIRED, REPEATED" /\
      ~ In (upper v) TableFieldValidators.MODES
  end /\
  TableFieldValidators.upper_mode (lower v) = TableFieldValidators.upper_mode v.
Proof.
  split.
  - unfold TableFieldValidators.upper_mode.
    destruct (existsb (String.eqb (upper v)) TableFieldValidators.MODES)
      eqn:Hmode; cbn [negb].
    + split; [ reflexivity | ].
      split; [ now apply existsb_eqb_In | ].
      rewrite upper_idem, Hmode. reflexivity.
    + split; [ reflexivity | ].
      intros Hin. apply existsb_eqb_In in Hin. congruence.
  - unfold TableFieldValidators.upper_mode. now rewrite upper_lower.
Qed.

(** ** The result of a SELECT *)

(** A SELECT that succeeds answers the rows of the one query it sent:
    the rows of the result are the rows the store returned, each
    normalized, in the store's order; row_count is their number and job_id
    is the id of that query's job. So every row keeps its column names and
    holds no decimal, date or time any more. *)
Theorem select_result_contract {L : Lib}
    (settings : Settings) (client : Client) (args : ExecuteArgs) (v : Value)
    (Hop : operation args = SELECT)
    (Hok : outcome (execute settings client args) = inr v) :
  exists sql params job,
    trace (execute settings client args)
    = [EvStore (Query sql (bigquery_location settings) params)] /\
    query client sql (bigquery_location settings) params = inr job /\
    v = VDict [("operation", VStr "SELECT");
               ("row_count", VInt (Z.of_nat (length (result job))));
               ("rows",
                VList (map (fun r => VDict (map (fun kv =>
                                      (fst kv, _normalize_value (snd kv))) r))
                           (result job)));
               ("job_id", VStr (job_id job))] /\
    Forall (fun r => Forall (fun kv => Forms.plain (_normalize_value (snd kv)) = true) r)
           (result job).
Proof.
  revert Hok. unfold execute. rewrite Hop. unfold _select.
  repeat match goal with
  | |- context [Store.bind (lift ?x) _] =>
      destruct x eqn:?; [ rewrite bind_lift_inl; discriminate
                        | rewrite bind_lift_inr ]; cbn beta zeta
  end.
  rewrite bind_emit.
  match goal with
  | |- context [query client ?qsql ?qloc ?qparams] =>
      destruct (query client qsql qloc qparams) as [ e | job ] eqn:Hjob;
        [ discriminate | intros Hv; exists qsql, qparams, job ]
  end.
  cbn in Hv. injection Hv as <-.
  split; [ reflexivity | ]. split; [ exact Hjob | ].
  split; [ now rewrite length_map | ].
  apply Forall_forall. intros r _. apply Forall_forall. intros kv _.
  apply normalized_plain.
Qed.

Lemma select_result_contract_witness :
  exists sql params job,
    trace (execute (L := Sample.lib) Sample.settings Sample.client_with_rows
             (Sample.args SELECT "sales" "orders" None 10 None))
    = [EvStore (Query sql "EU" params)] /\
    query Sample.client_with_rows sql "EU" params = inr job /\
    VDict [("operation", VStr "SELECT"); ("row_count", VInt 2);
           ("rows",
            VList [VDict [("amount", VStr "0"); ("day", VStr "1970-01-01")];
                   VDict [("amount", VInt 3);
                          ("tags", VList [VStr "a"; VStr "00:00:00"])]]);
           ("job_id", VStr "job-2")]
    = VDict [("operation", VStr "SELECT");
             ("row_count", VInt (Z.of_nat (length (result job))));
             ("rows",
              VList (map (fun r => VDict (map (fun kv =>
                        (fst kv, _normalize_value (L := Sample.lib) (snd kv))) r))
                         (result job)));
             ("job_id", VStr (job_id job))] /\
    Forall (fun r => Forall (fun kv =>
              Forms.plain (_normalize_value (L := Sample.lib) (snd kv)) = true) r)
           (result job).
Proof.
  apply (select_result_contract (L := Sample.lib) Sample.settings
           Sample.client_with_rows
           (Sample.args SELECT "sales" "orders" None 10 None));
    reflexivity.
Defined.
